(** * examples/oauth-client.py: the OAuth 2.1 / PKCE demo client of twenty-mcp

    A shallow embedding of [OAuthClient] and [CallbackServer.handle_callback],
    together with the library functions the script calls
    ([base64.urlsafe_b64encode], [hashlib.sha256], [str.rstrip],
    [bytes.decode], [str.encode], [secrets.token_bytes], [secrets.token_hex],
    [urllib.parse.urlencode]).

    Python [bytes] are [list byte]; Python [str] is a list of Unicode code
    points ([list N]); 32-bit words of SHA-256 are [N] with the wrap-around
    written out. *)

From Stdlib Require Import List NArith ZArith Lia Bool.
From Stdlib.Strings Require Import String Ascii Byte.
From Stdlib Require Import DecimalString.
Import ListNotations.

Set Implicit Arguments.

(** ** Python values: bytes and str *)

Definition bytes := list byte.

(** A [str] is a sequence of code points. *)
Definition str := list N.

Definition byte_eqb (a b : byte) : bool := N.eqb (Byte.to_N a) (Byte.to_N b).

(** The byte with value [n mod 256]. *)
Definition byte_of_N (n : N) : byte :=
  match Byte.of_N (n mod 256) with
  | Some b => b
  | None => x00
  end.

Fixpoint str_eqb (a b : str) : bool :=
  match a, b with
  | [], [] => true
  | x :: a', y :: b' => N.eqb x y && str_eqb a' b'
  | _, _ => false
  end.

(** [c in chars] on a str. *)
Definition str_mem (c : N) (chars : str) : bool := existsb (N.eqb c) chars.

(** ** UTF-8: [bytes.decode('utf-8')] and [str.encode('utf-8')] (strict) *)

Module Utf8.

Local Open Scope N_scope.

Definition is_cont (b : byte) : bool :=
  let n := Byte.to_N b in (0x80 <=? n) && (n <=? 0xBF).

Definition low6 (b : byte) : N := Byte.to_N b mod 64.

Definition is_surrogate (cp : N) : bool := (0xD800 <=? cp) && (cp <=? 0xDFFF).

(** Strict decoder: [None] stands for [UnicodeDecodeError]. Overlong forms,
    surrogates and values above U+10FFFF are rejected. *)
Fixpoint decode (bs : bytes) : option str :=
  match bs with
  | [] => Some []
  | b0 :: r0 =>
    let n0 := Byte.to_N b0 in
    if n0 <? 0x80 then option_map (cons n0) (decode r0)
    else if n0 <? 0xC0 then None
    else if n0 <? 0xE0 then
      match r0 with
      | b1 :: r1 =>
        let cp := (n0 mod 32) * 64 + low6 b1 in
        if is_cont b1 && (0x80 <=? cp)
        then option_map (cons cp) (decode r1) else None
      | _ => None
      end
    else if n0 <? 0xF0 then
      match r0 with
      | b1 :: b2 :: r2 =>
        let cp := ((n0 mod 16) * 64 + low6 b1) * 64 + low6 b2 in
        if is_cont b1 && is_cont b2 && (0x800 <=? cp) && negb (is_surrogate cp)
        then option_map (cons cp) (decode r2) else None
      | _ => None
      end
    else if n0 <? 0xF8 then
      match r0 with
      | b1 :: b2 :: b3 :: r3 =>
        let cp := (((n0 mod 8) * 64 + low6 b1) * 64 + low6 b2) * 64 + low6 b3 in
        if is_cont b1 && is_cont b2 && is_cont b3
           && (0x10000 <=? cp) && (cp <=? 0x10FFFF)
        then option_map (cons cp) (decode r3) else None
      | _ => None
      end
    else None
  end.

(** The bytes of one code point; [None] stands for [UnicodeEncodeError]
    (a lone surrogate) or a value that is no code point. *)
Definition encode_cp (cp : N) : option bytes :=
  if cp <? 0x80 then Some [byte_of_N cp]
  else if cp <? 0x800 then
    Some [byte_of_N (0xC0 + cp / 64); byte_of_N (0x80 + cp mod 64)]
  else if cp <? 0x10000 then
    if is_surrogate cp then None
    else Some [byte_of_N (0xE0 + cp / 4096);
               byte_of_N (0x80 + (cp / 64) mod 64);
               byte_of_N (0x80 + cp mod 64)]
  else if cp <=? 0x10FFFF then
    Some [byte_of_N (0xF0 + cp / 262144);
          byte_of_N (0x80 + (cp / 4096) mod 64);
          byte_of_N (0x80 + (cp / 64) mod 64);
          byte_of_N (0x80 + cp mod 64)]
  else None.

Fixpoint encode (s : str) : option bytes :=
  match s with
  | [] => Some []
  | cp :: r =>
    match encode_cp cp, encode r with
    | Some b, Some bs => Some (b ++ bs)
    | _, _ => None
    end
  end.

End Utf8.

(** A string literal of the script: the Rocq literal holds the UTF-8 bytes of
    the source text, decoded into code points. *)
Definition lit (s : string) : str :=
  match Utf8.decode (list_byte_of_string s) with
  | Some cps => cps
  | None => []
  end.

(** ** [str.rstrip(chars)] *)

Fixpoint rstrip (chars : str) (s : str) : str :=
  match s with
  | [] => []
  | c :: r =>
    match rstrip chars r with
    | [] => if str_mem c chars then [] else [c]
    | r' => c :: r'
    end
  end.

(** ** [base64.b64encode] and [base64.urlsafe_b64encode] *)

Module Base64.

Local Open Scope N_scope.

Definition alphabet : bytes :=
  list_byte_of_string
    "ABCDEFGHIJKLMNOPQRSTUVWXYZabcdefghijklmnopqrstuvwxyz0123456789+/".

Definition pad : byte := "="%byte.

(** The character of a 6-bit value. *)
Definition char (n : N) : byte := nth (N.to_nat n) alphabet pad.

Fixpoint b64encode (s : bytes) : bytes :=
  match s with
  | [] => []
  | [a] =>
    let a := Byte.to_N a in
    [char (N.shiftr a 2); char (N.shiftl (N.land a 3) 4); pad; pad]
  | [a; b] =>
    let a := Byte.to_N a in
    let b := Byte.to_N b in
    [char (N.shiftr a 2);
     char (N.lor (N.shiftl (N.land a 3) 4) (N.shiftr b 4));
     char (N.shiftl (N.land b 15) 2); pad]
  | a :: b :: c :: r =>
    let a := Byte.to_N a in
    let b := Byte.to_N b in
    let c := Byte.to_N c in
    char (N.shiftr a 2)
    :: char (N.lor (N.shiftl (N.land a 3) 4) (N.shiftr b 4))
    :: char (N.lor (N.shiftl (N.land b 15) 2) (N.shiftr c 6))
    :: char (N.land c 63)
    :: b64encode r
  end.

(** [bytes.translate] with the table [bytes.maketrans(b'+/', b'-_')]. *)
Definition urlsafe_translate (b : byte) : byte :=
  if byte_eqb b "+"%byte then "-"%byte
  else if byte_eqb b "/"%byte then "_"%byte
  else b.

Definition urlsafe_b64encode (s : bytes) : bytes :=
  map urlsafe_translate (b64encode s).

End Base64.

(** ** [hashlib.sha256(data).digest()] (FIPS 180-4) *)

Module Sha256.

Local Open Scope N_scope.

Definition w32 : N := 0x100000000.

Definition add32 (a b : N) : N := (a + b) mod w32.

Definition rotr (n x : N) : N :=
  N.lor (N.shiftr x n) ((N.shiftl x (32 - n)) mod w32).

Definition not32 (x : N) : N := w32 - 1 - x.

Definition Ch (x y z : N) : N := N.lxor (N.land x y) (N.land (not32 x) z).
Definition Maj (x y z : N) : N :=
  N.lxor (N.lxor (N.land x y) (N.land x z)) (N.land y z).
Definition Sigma0 (x : N) : N := N.lxor (N.lxor (rotr 2 x) (rotr 13 x)) (rotr 22 x).
Definition Sigma1 (x : N) : N := N.lxor (N.lxor (rotr 6 x) (rotr 11 x)) (rotr 25 x).
Definition sigma0 (x : N) : N := N.lxor (N.lxor (rotr 7 x) (rotr 18 x)) (N.shiftr x 3).
Definition sigma1 (x : N) : N := N.lxor (N.lxor (rotr 17 x) (rotr 19 x)) (N.shiftr x 10).

(** The first 64 primes. *)
Definition primes : list N :=
  [2; 3; 5; 7; 11; 13; 17; 19; 23; 29; 31; 37; 41; 43; 47; 53; 59; 61; 67;
   71; 73; 79; 83; 89; 97; 101; 103; 107; 109; 113; 127; 131; 137; 139; 149;
   151; 157; 163; 167; 173; 179; 181; 191; 193; 197; 199; 211; 223; 227;
   229; 233; 239; 241; 251; 257; 263; 269; 271; 277; 281; 283; 293; 307;
   311].

(** The integer cube root of [n], built from bit [bits - 1] down. *)
Fixpoint cube_root_from (bits : nat) (n r : N) : N :=
  match bits with
  | O => r
  | S bits' =>
    let r' := r + N.shiftl 1 (N.of_nat bits') in
    cube_root_from bits' n (if r' * r' * r' <=? n then r' else r)
  end.

Definition cube_root (n : N) : N := cube_root_from 40 n 0.

(** The round constants: the first 32 bits of the fractional parts of the
    cube roots of the first 64 primes. *)
Definition K : list N :=
  Eval vm_compute in
    map (fun p => cube_root (p * N.shiftl 1 96) mod w32) primes.

(** The initial hash value: the first 32 bits of the fractional parts of
    the square roots of the first 8 primes. *)
Definition H0 : list N :=
  Eval vm_compute in
    map (fun p => N.sqrt (p * N.shiftl 1 64) mod w32) (firstn 8 primes).

(** Big-endian bytes of a value, [n] of them. *)
Fixpoint be_bytes (n : nat) (x : N) : bytes :=
  match n with
  | O => []
  | S n' => byte_of_N (N.shiftr x (8 * N.of_nat n')) :: be_bytes n' x
  end.

(** Padding: the bit 1, zeros up to 56 modulo 64 bytes, the bit length on
    8 bytes. *)
Definition padding (len : N) : bytes :=
  x80 :: repeat x00 (N.to_nat ((119 - len mod 64) mod 64))
      ++ be_bytes 8 (8 * len).

Definition pad_message (msg : bytes) : bytes :=
  msg ++ padding (N.of_nat (List.length msg)).

(** The big-endian 32-bit words of a byte string (a trailing group of fewer
    than four bytes is dropped; padded messages have none). *)
Fixpoint words_of_bytes (bs : bytes) : list N :=
  match bs with
  | a :: b :: c :: d :: r =>
    (((Byte.to_N a * 256 + Byte.to_N b) * 256 + Byte.to_N c) * 256 + Byte.to_N d)
    :: words_of_bytes r
  | _ => []
  end.

(** The message schedule: [n] more words appended to [w]. *)
Fixpoint schedule (n : nat) (w : list N) : list N :=
  match n with
  | O => w
  | S n' =>
    let t := List.length w in
    let x := add32 (add32 (sigma1 (nth (t - 2) w 0)) (nth (t - 7) w 0))
                   (add32 (sigma0 (nth (t - 15) w 0)) (nth (t - 16) w 0)) in
    schedule n' (w ++ [x])
  end.

Record regs := Regs { ra : N; rb : N; rc : N; rd : N; re : N; rf : N; rg : N; rh : N }.

Definition round (s : regs) (kw : N * N) : regs :=
  let (k, w) := kw in
  let t1 := add32 (add32 (add32 (add32 (rh s) (Sigma1 (re s))) (Ch (re s) (rf s) (rg s))) k) w in
  let t2 := add32 (Sigma0 (ra s)) (Maj (ra s) (rb s) (rc s)) in
  Regs (add32 t1 t2) (ra s) (rb s) (rc s) (add32 (rd s) t1) (re s) (rf s) (rg s).

Definition regs_of (h : list N) : regs :=
  Regs (nth 0 h 0) (nth 1 h 0) (nth 2 h 0) (nth 3 h 0)
       (nth 4 h 0) (nth 5 h 0) (nth 6 h 0) (nth 7 h 0).

Definition list_of (s : regs) : list N :=
  [ra s; rb s; rc s; rd s; re s; rf s; rg s; rh s].

(** One 16-word block folded into the hash value [h]. *)
Definition compress (h : list N) (block : list N) : list N :=
  let w := schedule 48 block in
  let s := fold_left round (combine K w) (regs_of h) in
  map (fun p => add32 (fst p) (snd p)) (combine h (list_of s)).

(** All blocks of a word list, with fuel bounding their number. *)
Fixpoint blocks (fuel : nat) (h : list N) (ws : list N) : list N :=
  match fuel with
  | O => h
  | S fuel' =>
    match ws with
    | [] => h
    | _ => blocks fuel' (compress h (firstn 16 ws)) (skipn 16 ws)
    end
  end.

Definition digest (msg : bytes) : bytes :=
  let ws := words_of_bytes (pad_message msg) in
  flat_map (be_bytes 4) (blocks (List.length ws) H0 ws).

End Sha256.

(** ** [bytes.hex()] *)

Definition hex_digit (n : N) : N :=
  (if n <? 10 then 48 + n else 87 + n)%N.

Definition hex (bs : bytes) : str :=
  flat_map (fun b => [hex_digit (Byte.to_N b / 16); hex_digit (Byte.to_N b mod 16)]%N) bs.


(** ** [str.join], [str.replace] on single characters, [str(int)] *)

Fixpoint join (sep : str) (parts : list str) : str :=
  match parts with
  | [] => []
  | [p] => p
  | p :: rest => p ++ sep ++ join sep rest
  end.

Definition replace_char (old new : N) (s : str) : str :=
  map (fun c => if N.eqb c old then new else c) s.

(** [str(n)] for an int: its decimal digits. *)
Definition str_of_int (n : Z) : str :=
  lit (NilZero.string_of_int (Z.to_int n)).

(** ** [urllib.parse.quote], [quote_plus] and [urlencode] *)

Module Urllib.

Local Open Scope N_scope.

Definition always_safe : str :=
  lit "ABCDEFGHIJKLMNOPQRSTUVWXYZabcdefghijklmnopqrstuvwxyz0123456789_.-~".

Definition upper_hex_digit (n : N) : N :=
  if n <? 10 then 48 + n else 55 + n.

(** One byte of [quote_from_bytes]: itself when safe, ['%XX'] otherwise. *)
Definition quote_byte (safe : str) (b : byte) : str :=
  let n := Byte.to_N b in
  if str_mem n always_safe || str_mem n safe then [n]
  else [37; upper_hex_digit (n / 16); upper_hex_digit (n mod 16)].

(** [quote(s, safe)] on a str: [None] when [s.encode('utf-8', 'strict')]
    raises. *)
Definition quote (safe : str) (s : str) : option str :=
  option_map (flat_map (quote_byte safe)) (Utf8.encode s).

Definition quote_plus (s : str) : option str :=
  if str_mem 32 s
  then option_map (replace_char 32 43) (quote [32] s)
  else quote [] s.

Fixpoint quote_pairs (query : list (str * str)) : option (list str) :=
  match query with
  | [] => Some []
  | (k, v) :: rest =>
    match quote_plus k with
    | None => None
    | Some k' =>
      match quote_plus v with
      | None => None
      | Some v' =>
        match quote_pairs rest with
        | None => None
        | Some l => Some ((k' ++ [61] ++ v') :: l)
        end
      end
    end
  end.

(** [urlencode(query)] for a dict of str keys and str values, in the dict's
    insertion order. *)
Definition urlencode (query : list (str * str)) : option str :=
  option_map (join [38]) (quote_pairs query).

End Urllib.

(** ** Decoded JSON values *)

#[local] Unset Elimination Schemes.
Inductive json :=
| JNull
| JBool (b : bool)
| JInt (n : Z)
| JFloat (bits : N)
| JStr (s : str)
| JArr (items : list json)
| JObj (fields : list (str * json)).
#[local] Set Elimination Schemes.

(** The first binding of a key in an insertion-ordered dict or multidict. *)
Fixpoint lookup {V : Type} (key : str) (d : list (str * V)) : option V :=
  match d with
  | [] => None
  | (k, v) :: rest => if str_eqb k key then Some v else lookup key rest
  end.

(** [key in d]. *)
Definition contains {V : Type} (key : str) (d : list (str * V)) : bool :=
  match lookup key d with
  | Some _ => true
  | None => false
  end.

(** ** Exceptions and outcomes *)

Inductive exn :=
| Exception (msg : str)
| KeyError (key : str)
| TypeError
| AttributeError
| RuntimeError
| UnicodeError
| ClientError
| JSONError.

Inductive outcome (A : Type) :=
| Returned (a : A)
| Raised (e : exn).

Arguments Returned {A} a.
Arguments Raised {A} e.

(** ** The HTTP client side: requests, responses and the network *)

Inductive http_method := GET | POST.

Record Request := {
  req_method : http_method;
  req_url : str;
  req_headers : list (str * str);
  req_json : option json
}.

(** An [aiohttp.ClientResponse]: [json_body] is what [await response.json()]
    yields ([None] when it raises), [text_body] what [await response.text()]
    yields. *)
Record ClientResponse := {
  status : Z;
  json_body : option json;
  text_body : option str
}.

(** [response.ok] of aiohttp: true if and only if the status is below 400. *)
Definition ok (r : ClientResponse) : bool := (status r <? 400)%Z.

Inductive Reply :=
| ConnectionFailed
| Responds (r : ClientResponse).

Record ClientSession := { closed : bool }.

(** ** The client object and the world it runs in *)

Record OAuthClient := {
  access_token : option str;
  code_verifier : option str;
  state : option str;
  session : option ClientSession
}.

(** [OAuthClient.__init__] *)
Definition init : OAuthClient :=
  {| access_token := None; code_verifier := None; state := None; session := None |}.

(** The world: the client instance, the system's secure random source (a
    stream of bytes and the number already drawn), standard output (the
    printed lines, oldest first), the requests sent so far and the network,
    which answers each request given the history of requests. *)
Record World := {
  client : OAuthClient;
  entropy : nat -> byte;
  drawn : nat;
  stdout : list str;
  requests : list Request;
  network : list Request -> Reply
}.

Definition M (A : Type) : Type := World -> outcome A * World.

Definition ret {A} (a : A) : M A := fun w => (Returned a, w).

Definition raise {A} (e : exn) : M A := fun w => (Raised e, w).

Definition bind {A B} (m : M A) (k : A -> M B) : M B :=
  fun w =>
    match m w with
    | (Returned a, w') => k a w'
    | (Raised e, w') => (Raised e, w')
    end.

Declare Scope py_scope.
Delimit Scope py_scope with py.
Notation "x <- m ;; k" := (bind m (fun x => k))
  (at level 100, m at next level, right associativity) : py_scope.
Notation "m ;; k" := (bind m (fun _ => k))
  (at level 100, right associativity) : py_scope.
Open Scope py_scope.

Definition modify_client (f : OAuthClient -> OAuthClient) : M unit :=
  fun w => (Returned tt,
            {| client := f (client w); entropy := entropy w; drawn := drawn w;
               stdout := stdout w; requests := requests w; network := network w |}).

Definition read_client {A} (f : OAuthClient -> A) : M A :=
  fun w => (Returned (f (client w)), w).

Definition set_access_token (v : option str) : M unit :=
  modify_client (fun c =>
    {| access_token := v; code_verifier := code_verifier c;
       state := state c; session := session c |}).

Definition set_code_verifier (v : option str) : M unit :=
  modify_client (fun c =>
    {| access_token := access_token c; code_verifier := v;
       state := state c; session := session c |}).

Definition set_state (v : option str) : M unit :=
  modify_client (fun c =>
    {| access_token := access_token c; code_verifier := code_verifier c;
       state := v; session := session c |}).

Definition set_session (v : option ClientSession) : M unit :=
  modify_client (fun c =>
    {| access_token := access_token c; code_verifier := code_verifier c;
       state := state c; session := v |}).

(** [print(line)]: the line is added to standard output. *)
Definition print (line : str) : M unit :=
  fun w => (Returned tt,
            {| client := client w; entropy := entropy w; drawn := drawn w;
               stdout := stdout w ++ [line]; requests := requests w;
               network := network w |}).

(** [secrets.token_bytes(n)]: the next [n] bytes of the random source. *)
Definition token_bytes (n : nat) : M bytes :=
  fun w => (Returned (map (entropy w) (seq (drawn w) n)),
            {| client := client w; entropy := entropy w; drawn := drawn w + n;
               stdout := stdout w; requests := requests w; network := network w |}).

(** [secrets.token_hex(n)] is [token_bytes(n).hex()]. *)
Definition token_hex (n : nat) : M str :=
  b <- token_bytes n ;; ret (hex b).

(** A value that may be missing: [None] raises [e]. *)
Definition expect {A} (e : exn) (o : option A) : M A :=
  match o with
  | Some a => ret a
  | None => raise e
  end.

(** [session.get(url, ...)] and [session.post(url, ...)] entered as a context
    manager: the request is sent and the network's reply to the history is
    received. *)
Definition send (s : option ClientSession) (rq : Request) : M ClientResponse :=
  match s with
  | None => raise AttributeError
  | Some s =>
    if closed s then raise RuntimeError
    else fun w =>
      let sent := requests w ++ [rq] in
      let w' := {| client := client w; entropy := entropy w; drawn := drawn w;
                   stdout := stdout w; requests := sent; network := network w |} in
      match network w sent with
      | ConnectionFailed => (Raised ClientError, w')
      | Responds r => (Returned r, w')
      end
  end.

(** ** Operations on decoded JSON values *)

(** [v[key]] with a str key. *)
Definition subscript (v : json) (key : str) : M json :=
  match v with
  | JObj fields => expect (KeyError key) (lookup key fields)
  | _ => raise TypeError
  end.

(** [v.get(key, default)] *)
Definition get_default (v : json) (key : str) (default : json) : M json :=
  match v with
  | JObj fields =>
    ret (match lookup key fields with Some x => x | None => default end)
  | _ => raise AttributeError
  end.

(** [v.get(key)] *)
Definition get_or_none (v : json) (key : str) : M (option json) :=
  match v with
  | JObj fields => ret (lookup key fields)
  | _ => raise AttributeError
  end.

Fixpoint all_strs (items : list json) : option (list str) :=
  match items with
  | [] => Some []
  | JStr s :: rest => option_map (cons s) (all_strs rest)
  | _ :: _ => None
  end.

(** [sep.join(v)]: a list of str, the characters of a str or the keys of a
    dict; anything else is a [TypeError]. *)
Definition join_value (sep : str) (v : json) : M str :=
  match v with
  | JArr items => r <- expect TypeError (all_strs items) ;; ret (join sep r)
  | JStr s => ret (join sep (map (fun c => [c]) s))
  | JObj fields => ret (join sep (map fst fields))
  | _ => raise TypeError
  end.

(** [bytes.decode('utf-8')] and [str.encode('utf-8')] in the monad. *)
Definition decode_utf8 (b : bytes) : M str := expect UnicodeError (Utf8.decode b).
Definition encode_utf8 (s : str) : M bytes := expect UnicodeError (Utf8.encode s).

(** [s[:n]] *)
Definition prefix (n : nat) (s : str) : str := firstn n s.

(** [web.Response(text=..., content_type=..., status=...)] *)
Module Web.
Record Response := {
  text : str;
  content_type : str;
  status : Z
}.
(** The status of a response built without [status=]. *)
Definition default_status : Z := 200.
End Web.

Definition CLIENT_PORT : Z := 8080.

Definition REDIRECT_URI : str :=
  lit "http://localhost:" ++ str_of_int CLIENT_PORT ++ lit "/callback".

Section Client.

(** [MCP_SERVER_URL]: the environment variable of that name, or its default
    ['http://localhost:3000']. *)
Variable MCP_SERVER_URL : str.

(** Python's [repr] of a decoded JSON value that is not a str, and the
    message of an exception the script did not build itself. *)
Variable repr_json : json -> str.
Variable exn_message : exn -> str.

(** [str(v)], as an f-string formats a value. *)
Definition py_str (v : json) : str :=
  match v with
  | JStr s => s
  | _ => repr_json v
  end.

Definition str_of_exn (e : exn) : str :=
  match e with
  | Exception msg => msg
  | _ => exn_message e
  end.

(** [__aenter__]: [session] stands for the [aiohttp.ClientSession()] just
    opened. *)
Definition aenter : M unit :=
  set_session (Some {| closed := false |}).

(** [__aexit__] *)
Definition aexit : M unit :=
  s <- read_client session ;;
  match s with
  | Some _ => set_session (Some {| closed := true |})
  | None => ret tt
  end.

(** [OAuthClient.generate_pkce] *)
Definition generate_pkce : M (list (str * str)) :=
  rnd <- token_bytes 32 ;;
  v <- decode_utf8 (Base64.urlsafe_b64encode rnd) ;;
  set_code_verifier (Some (rstrip (lit "=") v)) ;;
  cv <- read_client code_verifier ;;
  cv <- expect AttributeError cv ;;
  b <- encode_utf8 cv ;;
  c <- decode_utf8 (Base64.urlsafe_b64encode (Sha256.digest b)) ;;
  let code_challenge := rstrip (lit "=") c in
  cv <- read_client code_verifier ;;
  cv <- expect AttributeError cv ;;
  ret [(lit "code_verifier", cv);
       (lit "code_challenge", code_challenge);
       (lit "code_challenge_method", lit "S256")].

(** [OAuthClient.generate_state] *)
Definition generate_state : M str :=
  t <- token_hex 16 ;;
  set_state (Some t) ;;
  s <- read_client state ;;
  expect AttributeError s.

(** [OAuthClient.discover_endpoints] *)
Definition discover_endpoints : M json :=
  print (lit "🔍 Discovering OAuth endpoints...") ;;
  s <- read_client session ;;
  response <- send s {| req_method := GET;
                        req_url := MCP_SERVER_URL ++ lit "/.well-known/oauth-protected-resource";
                        req_headers := []; req_json := None |} ;;
  if negb (ok response)
  then raise (Exception (lit "Discovery failed: " ++ str_of_int (status response)))
  else
    metadata <- expect JSONError (json_body response) ;;
    print (lit "✅ OAuth endpoints discovered") ;;
    resource <- subscript metadata (lit "resource") ;;
    print (lit "   Resource: " ++ py_str resource) ;;
    servers <- subscript metadata (lit "authorization_servers") ;;
    joined <- join_value (lit ", ") servers ;;
    print (lit "   Auth Servers: " ++ joined) ;;
    ret metadata.

(** [OAuthClient.get_auth_server_metadata] *)
Definition get_auth_server_metadata : M json :=
  print (lit "📋 Getting authorization server metadata...") ;;
  s <- read_client session ;;
  response <- send s {| req_method := GET;
                        req_url := MCP_SERVER_URL ++ lit "/.well-known/oauth-authorization-server";
                        req_headers := []; req_json := None |} ;;
  if negb (ok response)
  then raise (Exception (lit "Auth server discovery failed: " ++ str_of_int (status response)))
  else
    metadata <- expect JSONError (json_body response) ;;
    print (lit "✅ Authorization server metadata retrieved") ;;
    issuer <- subscript metadata (lit "issuer") ;;
    print (lit "   Issuer: " ++ py_str issuer) ;;
    ep <- subscript metadata (lit "authorization_endpoint") ;;
    print (lit "   Auth Endpoint: " ++ py_str ep) ;;
    tep <- subscript metadata (lit "token_endpoint") ;;
    print (lit "   Token Endpoint: " ++ py_str tep) ;;
    ret metadata.

(** [OAuthClient.simulate_callback] *)
Definition simulate_callback : M str :=
  print (lit "🔄 Simulating OAuth callback...") ;;
  t <- token_hex 16 ;;
  set_access_token (Some (lit "mock_access_token_" ++ t)) ;;
  print (lit "✅ Authorization completed (simulated)") ;;
  tok <- read_client access_token ;;
  tok <- expect TypeError tok ;;
  print (lit "   Access Token: " ++ prefix 20 tok ++ lit "...") ;;
  tok <- read_client access_token ;;
  expect TypeError tok.

(** The query parameters [auth_params] of [start_auth_flow]. *)
Definition auth_params (code_challenge code_challenge_method state : str)
  : list (str * str) :=
  [(lit "response_type", lit "code");
   (lit "client_id", lit "YOUR_CLIENT_ID");
   (lit "redirect_uri", REDIRECT_URI);
   (lit "scope", lit "twenty:read twenty:write");
   (lit "code_challenge", code_challenge);
   (lit "code_challenge_method", code_challenge_method);
   (lit "state", state)].

(** [OAuthClient.start_auth_flow] *)
Definition start_auth_flow (auth_server_metadata : json) : M str :=
  pkce_params <- generate_pkce ;;
  state <- generate_state ;;
  cc <- expect (KeyError (lit "code_challenge")) (lookup (lit "code_challenge") pkce_params) ;;
  ccm <- expect (KeyError (lit "code_challenge_method"))
                (lookup (lit "code_challenge_method") pkce_params) ;;
  let params := auth_params cc ccm state in
  ep <- subscript auth_server_metadata (lit "authorization_endpoint") ;;
  q <- expect UnicodeError (Urllib.urlencode params) ;;
  let auth_url := py_str ep ++ lit "?" ++ q in
  print (lit "🚀 Starting OAuth authorization flow...") ;;
  print (lit "   Authorization URL: " ++ auth_url) ;;
  print (lit "ℹ️  In a real app, user would be redirected to authorize") ;;
  print (lit "ℹ️  For this demo, we'll simulate the callback with a mock token") ;;
  simulate_callback.

(** [f'Bearer {self.access_token}'] *)
Definition bearer (tok : option str) : str :=
  lit "Bearer " ++ match tok with Some t => t | None => lit "None" end.

(** [OAuthClient.store_api_key] *)
Definition store_api_key (api_key base_url : str) : M bool :=
  print (lit "💾 Storing Twenty API key...") ;;
  tok <- read_client access_token ;;
  let headers := [(lit "Authorization", bearer tok);
                  (lit "Content-Type", lit "application/json")] in
  let data := JObj [(lit "apiKey", JStr api_key); (lit "baseUrl", JStr base_url)] in
  s <- read_client session ;;
  response <- send s {| req_method := POST;
                        req_url := MCP_SERVER_URL ++ lit "/api/keys";
                        req_headers := headers; req_json := Some data |} ;;
  if (status response =? 401)%Z then
    print (lit "❌ Authentication failed (expected with mock token)") ;;
    print (lit "ℹ️  In production, use real Clerk tokens") ;;
    ret false
  else if negb (ok response)
  then raise (Exception (lit "Failed to store API key: " ++ str_of_int (status response)))
  else
    result <- expect JSONError (json_body response) ;;
    print (lit "✅ API key stored successfully") ;;
    ret true.

(** The default of [base_url] in [store_api_key]. *)
Definition default_base_url : str := lit "https://api.twenty.com".

(** [OAuthClient.get_api_key_metadata] *)
Definition get_api_key_metadata : M (option json) :=
  print (lit "📊 Getting API key metadata...") ;;
  tok <- read_client access_token ;;
  let headers := [(lit "Authorization", bearer tok)] in
  s <- read_client session ;;
  response <- send s {| req_method := GET;
                        req_url := MCP_SERVER_URL ++ lit "/api/keys";
                        req_headers := headers; req_json := None |} ;;
  if (status response =? 401)%Z then
    print (lit "❌ Authentication failed (expected with mock token)") ;;
    ret None
  else if negb (ok response)
  then raise (Exception (lit "Failed to get metadata: " ++ str_of_int (status response)))
  else
    metadata <- expect JSONError (json_body response) ;;
    print (lit "✅ API key metadata retrieved") ;;
    has_key <- subscript metadata (lit "hasKey") ;;
    print (lit "   Has Key: " ++ py_str has_key) ;;
    base <- get_default metadata (lit "baseUrl") (JStr (lit "default")) ;;
    print (lit "   Base URL: " ++ py_str base) ;;
    updated <- get_default metadata (lit "updatedAt") (JStr (lit "never")) ;;
    print (lit "   Updated: " ++ py_str updated) ;;
    ret (Some metadata).

(** [v == 'No API key configured'] for the result of [error.get('error')]. *)
Definition is_no_api_key (v : option json) : bool :=
  match v with
  | Some (JStr s) => str_eqb s (lit "No API key configured")
  | _ => false
  end.

(** The rest of [make_mcp_request] once the 401 and 400 checks have let the
    response through. *)
Definition mcp_result (response : ClientResponse) : M (option str) :=
  print (lit "📤 MCP Response Status: " ++ str_of_int (status response)) ;;
  result <- expect UnicodeError (text_body response) ;;
  print (lit "📥 MCP Response: " ++ prefix 200 result ++ lit "...") ;;
  ret (Some result).

(** [OAuthClient.make_mcp_request] *)
Definition make_mcp_request : M (option str) :=
  print (lit "🔗 Making authenticated MCP request...") ;;
  tok <- read_client access_token ;;
  let headers := [(lit "Authorization", bearer tok);
                  (lit "Content-Type", lit "application/json")] in
  let data := JObj [(lit "jsonrpc", JStr (lit "2.0"));
                    (lit "method", JStr (lit "initialize"));
                    (lit "params", JObj []);
                    (lit "id", JInt 1)] in
  s <- read_client session ;;
  response <- send s {| req_method := POST;
                        req_url := MCP_SERVER_URL ++ lit "/mcp";
                        req_headers := headers; req_json := Some data |} ;;
  if (status response =? 401)%Z then
    print (lit "❌ Authentication failed (expected with mock token)") ;;
    print (lit "ℹ️  In production, use real Clerk tokens") ;;
    ret None
  else if (status response =? 400)%Z then
    error <- expect JSONError (json_body response) ;;
    e <- get_or_none error (lit "error") ;;
    if is_no_api_key e then
      print (lit "ℹ️  User needs to configure their Twenty API key first") ;;
      ret None
    else mcp_result response
  else mcp_result response.

(** [try: body  except Exception as error: handler(error)] *)
Definition try_except {A} (body : M A) (handler : exn -> M A) : M A :=
  fun w =>
    match body w with
    | (Returned a, w') => (Returned a, w')
    | (Raised e, w') => handler e w'
    end.

(** The [try] block of [run_complete_flow]. *)
Definition complete_flow_steps : M unit :=
    (print (lit "🎯 OAuth 2.1 Flow Demo for Twenty MCP Server (Python)") ;;
     print (lit "═══════════════════════════════════════════════════════") ;;
     print (lit "") ;;
     endpoints <- discover_endpoints ;;
     print (lit "") ;;
     auth_metadata <- get_auth_server_metadata ;;
     print (lit "") ;;
     start_auth_flow auth_metadata ;;
     print (lit "") ;;
     let test_api_key := lit "demo-twenty-api-key-12345" in
     store_api_key test_api_key default_base_url ;;
     print (lit "") ;;
     get_api_key_metadata ;;
     print (lit "") ;;
     make_mcp_request ;;
     print (lit "") ;;
     print (lit "🎉 OAuth flow demo completed!") ;;
     print (lit "") ;;
     print (lit "📝 Summary:") ;;
     print (lit "   ✅ OAuth endpoints discovered") ;;
     print (lit "   ✅ Authorization flow initiated") ;;
     print (lit "   ✅ API key management tested") ;;
     print (lit "   ✅ MCP request attempted") ;;
     print (lit "") ;;
     print (lit "ℹ️  To test with real tokens:") ;;
     print (lit "   1. Set up Clerk application") ;;
     print (lit "   2. Configure client credentials") ;;
     print (lit "   3. Implement real authorization flow") ;;
     print (lit "   4. Use real Bearer tokens")).

(** [OAuthClient.run_complete_flow] *)
Definition run_complete_flow : M unit :=
  try_except complete_flow_steps
    (fun error =>
       print (lit "❌ Demo failed: " ++ str_of_exn error) ;;
       raise error).

(** ** [CallbackServer.handle_callback] *)

(** [a != b] on values that are a str or [None]. *)
Definition differs (a b : option str) : bool :=
  match a, b with
  | Some x, Some y => negb (str_eqb x y)
  | None, None => false
  | _, _ => true
  end.

(** [not code] for a str or [None]. *)
Definition falsy (code : option str) : bool :=
  match code with
  | None => true
  | Some [] => true
  | Some (_ :: _) => false
  end.

Definition authorization_error_text (err : str) : str :=
  lit "<h1>Authorization Error</h1><p>" ++ err ++ lit "</p>".

Definition invalid_state_text : str :=
  lit "<h1>Invalid State</h1><p>State parameter mismatch</p>".

Definition missing_code_text : str :=
  lit "<h1>Missing Code</h1><p>No authorization code received</p>".

Definition success_text : str :=
  lit "
            <h1>Authorization Successful!</h1>
            <p>You can close this window and return to the application.</p>
            <script>window.close();</script>
            ".

(** The handler reads [self.client.state]: the state field of the client
    the server was built around. [query] is the request's multidict, as its
    (key, value) pairs in order. *)
Definition handle_callback (query : list (str * str)) : M Web.Response :=
  if contains (lit "error") query then
    err <- expect (KeyError (lit "error")) (lookup (lit "error") query) ;;
    ret {| Web.text := authorization_error_text err;
           Web.content_type := lit "text/html";
           Web.status := 400 |}
  else
    stored <- read_client state ;;
    if differs (lookup (lit "state") query) stored then
      ret {| Web.text := invalid_state_text;
             Web.content_type := lit "text/html";
             Web.status := 400 |}
    else
      let code := lookup (lit "code") query in
      if falsy code then
        ret {| Web.text := missing_code_text;
               Web.content_type := lit "text/html";
               Web.status := 400 |}
      else
        print (lit "📨 Received authorization code: "
               ++ match code with Some c => c | None => lit "None" end) ;;
        ret {| Web.text := success_text;
               Web.content_type := lit "text/html";
               Web.status := Web.default_status |}.

End Client.

(** ** [main] *)

(** The truth value of the result of [health.get(key)]: [None], [false],
    zero, and the empty str, list and dict are false. A [JFloat] holds the
    bits of a binary64 number, zero when all bits but the sign are. *)
Definition truthy (v : option json) : bool :=
  match v with
  | None => false
  | Some JNull => false
  | Some (JBool b) => b
  | Some (JInt n) => negb (n =? 0)%Z
  | Some (JFloat bits) => negb (bits mod 0x8000000000000000 =? 0)%N
  | Some (JStr []) => false
  | Some (JStr (_ :: _)) => true
  | Some (JArr []) => false
  | Some (JArr (_ :: _)) => true
  | Some (JObj []) => false
  | Some (JObj (_ :: _)) => true
  end.

Section Main.

Variable MCP_SERVER_URL : str.
Variable repr_json : json -> str.
Variable exn_message : exn -> str.

(** The first part of [main]: the request to [/health] on a session of its
    own, inside [try ... except Exception]. The result is [false] when the
    handler ends [main] with [return]. *)
Definition health_check : M bool :=
  try_except
    (response <- send (Some {| closed := false |})
                      {| req_method := GET;
                         req_url := MCP_SERVER_URL ++ lit "/health";
                         req_headers := []; req_json := None |} ;;
     if negb (ok response)
     then raise (Exception (lit "Server not responding"))
     else
       health <- expect JSONError (json_body response) ;;
       enabled <- get_or_none health (lit "authEnabled") ;;
       (if negb (truthy enabled) then
          print (lit "⚠️  Warning: Auth is not enabled on the MCP server") ;;
          print (lit "   Run " ++ [34%N] ++ lit "npm run setup:oauth" ++ [34%N]
                 ++ lit " to enable authentication")
        else ret tt) ;;
       ret true)
    (fun error =>
       print (lit "❌ Cannot connect to MCP server at " ++ MCP_SERVER_URL) ;;
       print (lit "   Make sure the server is running: npm start") ;;
       ret false).

(** [async with OAuthClient() as client: body]: a new client is built and
    entered, and left again whether [body] returns or raises; [__aexit__]
    returns [None], so that what [body] raises is raised again. *)
Definition with_client {A} (body : M A) : M A :=
  modify_client (fun _ => init) ;;
  aenter ;;
  fun w =>
    match body w with
    | (Returned a, w') => (aexit ;; ret a) w'
    | (Raised e, w') => (aexit ;; raise e) w'
    end.

(** [main] *)
Definition main : M unit :=
  go_on <- health_check ;;
  if go_on
  then with_client (run_complete_flow MCP_SERVER_URL repr_json exn_message)
  else ret tt.

End Main.

(** ** The specification's vocabulary *)

Module Spec.

Local Open Scope N_scope.

(** The URL-safe base64 alphabet of RFC 4648, section 5. *)
Definition url_alphabet : str :=
  lit "ABCDEFGHIJKLMNOPQRSTUVWXYZabcdefghijklmnopqrstuvwxyz0123456789-_".

Definition url_char (n : N) : N := nth (N.to_nat n) url_alphabet 61.

(** [base64url_nopad] in the specification's words: the URL-safe base64
    encoding without its padding. Each group of three bytes is a 24-bit
    number cut into four 6-bit values; a last group of one or two bytes is
    filled with zero bits on the right up to a multiple of six bits, and no
    ['='] is written. *)
Fixpoint base64url_nopad (bs : bytes) : str :=
  match bs with
  | [] => []
  | [a] =>
    let n := Byte.to_N a * 16 in
    [url_char (n / 64); url_char (n mod 64)]
  | [a; b] =>
    let n := (Byte.to_N a * 256 + Byte.to_N b) * 4 in
    [url_char (n / 4096); url_char ((n / 64) mod 64); url_char (n mod 64)]
  | a :: b :: c :: r =>
    let n := (Byte.to_N a * 256 + Byte.to_N b) * 256 + Byte.to_N c in
    url_char (n / 262144) :: url_char ((n / 4096) mod 64)
    :: url_char ((n / 64) mod 64) :: url_char (n mod 64)
    :: base64url_nopad r
  end.

(** A character of the URL-safe alphabet: A-Z, a-z, 0-9, '-' or '_'. *)
Definition is_urlsafe_char (c : N) : bool :=
  ((65 <=? c) && (c <=? 90)) || ((97 <=? c) && (c <=? 122))
  || ((48 <=? c) && (c <=? 57)) || (c =? 45) || (c =? 95).

(** A lower-case hexadecimal digit: 0-9 or a-f. *)
Definition is_hex_char (c : N) : bool :=
  ((48 <=? c) && (c <=? 57)) || ((97 <=? c) && (c <=? 102)).

(** [prefix] starts [s]. *)
Fixpoint starts_with (prefix s : str) : bool :=
  match prefix, s with
  | [], _ => true
  | p :: prefix', c :: s' => (p =? c) && starts_with prefix' s'
  | _ :: _, [] => false
  end.

(** [needle] occurs somewhere in [s]: the body gives that indication. *)
Fixpoint occurs_in (needle s : str) : bool :=
  starts_with needle s ||
  match s with
  | [] => false
  | _ :: s' => occurs_in needle s'
  end.

End Spec.

(** In the world [w] the client's session is open and the next request,
    whatever it is, is answered with the response [r]. *)
Definition answers (w : World) (r : ClientResponse) : Prop :=
  exists s, session (client w) = Some s /\ closed s = false /\
            forall rq, network w (requests w ++ [rq]) = Responds r.

(** The computation [m] leaves the part [part] of the world as it was,
    whatever it returns or raises. *)
Definition preserves {A X : Type} (part : World -> X) (m : M A) : Prop :=
  forall w, part (snd (m w)) = part w.




(** ** Sample inputs *)

Module Sample.

(** The 32 octets of RFC 7636, appendix B. *)
Definition rfc7636_octets : bytes :=
  map byte_of_N
    [116; 24; 223; 180; 151; 153; 224; 37; 79; 250; 96; 125; 216; 173; 187;
     186; 22; 212; 37; 77; 105; 214; 191; 240; 91; 88; 5; 88; 83; 132; 141;
     121]%N.

(** A client in the state [c], a random source that yields [rnd] and then
    zeros, nothing printed or sent yet, and a network that answers every
    request with [reply]. *)
Definition world (c : OAuthClient) (rnd : bytes) (reply : Reply) : World :=
  {| client := c;
     entropy := fun i => nth i rnd x00;
     drawn := 0;
     stdout := [];
     requests := [];
     network := fun _ => reply |}.

(** A client inside [async with OAuthClient() as client]. *)
Definition entered : OAuthClient :=
  {| access_token := None; code_verifier := None; state := None;
     session := Some {| closed := false |} |}.

(** The same world with the client in the state the handler compares
    against. *)
Definition expecting (stored : option str) : OAuthClient :=
  {| access_token := None; code_verifier := None; state := stored;
     session := None |}.

(** Callback queries. *)
Definition denied_and_forged : list (str * str) :=
  [(lit "error", lit "access_denied"); (lit "state", lit "forged")].

Definition forged : list (str * str) :=
  [(lit "code", lit "abc123"); (lit "state", lit "forged")].

Definition without_code : list (str * str) :=
  [(lit "state", lit "expected")].

Definition granted : list (str * str) :=
  [(lit "code", lit "abc123"); (lit "state", lit "expected")].

(** A world whose client expects the state "expected". *)
Definition awaiting : World :=
  world (expecting (Some (lit "expected"))) [] ConnectionFailed.

(** A response with the given status and body text, whose body is no
    JSON. *)
Definition plain (code : Z) (body : string) : ClientResponse :=
  {| status := code; json_body := None; text_body := Some (lit body) |}.

(** A response with the given status and a JSON body. *)
Definition with_json (code : Z) (body : json) : ClientResponse :=
  {| status := code; json_body := Some body; text_body := Some [] |}.

(** The protected-resource metadata of a server. *)
Definition resource_metadata : json :=
  JObj [(lit "resource", JStr (lit "http://localhost:3000"));
        (lit "authorization_servers", JArr [JStr (lit "http://localhost:3000")])].

(** The authorization-server metadata of a server. *)
Definition server_metadata : json :=
  JObj [(lit "issuer", JStr (lit "http://localhost:3000"));
        (lit "authorization_endpoint", JStr (lit "http://localhost:3000/authorize"));
        (lit "token_endpoint", JStr (lit "http://localhost:3000/token"))].

Definition server_url : str := lit "http://localhost:3000".

(** Worlds whose server answers every request 401, 500, or 304 with a JSON
    body. *)
Definition unauthorized : World :=
  world entered [] (Responds (plain 401 "Unauthorized")).

Definition failing : World :=
  world entered [] (Responds (plain 500 "Internal Server Error")).

Definition not_modified : World :=
  world entered [] (Responds (with_json 304 resource_metadata)).

(** A world at the start of the authorization flow, whose random source
    yields the octets of RFC 7636. *)
Definition flow_start : World :=
  world entered rfc7636_octets ConnectionFailed.

(** A stand-in for Python's [repr] on JSON values and for the messages of
    library exceptions. *)
Definition no_repr (v : json) : str := [].
Definition no_message (e : exn) : str := [].

End Sample.

(** ** Further sample inputs *)

Module Demo.

(** A server that answers the n-th request it sees with the n-th of
    [replies], and fails to answer once they are used up. *)
Definition serving (c : OAuthClient) (rnd : bytes) (replies : list ClientResponse)
  : World :=
  {| client := c;
     entropy := fun i => nth i rnd x00;
     drawn := 0;
     stdout := [];
     requests := [];
     network := fun history =>
       match nth_error replies (Nat.pred (List.length history)) with
       | Some r => Responds r
       | None => ConnectionFailed
       end |}.

(** The replies of a server that knows no token: the two metadata
    documents, then 401 three times. *)
Definition mock_token_replies : list ClientResponse :=
  [Sample.with_json 200 Sample.resource_metadata;
   Sample.with_json 200 Sample.server_metadata;
   Sample.plain 401 "Unauthorized";
   Sample.plain 401 "Unauthorized";
   Sample.plain 401 "Unauthorized"].

Definition mock_token_demo : World :=
  serving Sample.entered Sample.rfc7636_octets mock_token_replies.

(** A client that has left its [async with] block. *)
Definition left : OAuthClient :=
  {| access_token := None; code_verifier := None; state := None;
     session := Some {| closed := true |} |}.

(** A world whose network fails to answer. *)
Definition offline : World :=
  Sample.world Sample.entered [] ConnectionFailed.

(** A world whose server gives the answer [r] to every request. *)
Definition replying (r : ClientResponse) : World :=
  Sample.world Sample.entered [] (Responds r).

(** The 400 answer of a server that holds no API key for the user. *)
Definition no_api_key : ClientResponse :=
  Sample.with_json 400 (JObj [(lit "error", JStr (lit "No API key configured"))]).

End Demo.

(** * Properties *)

(** ** Known answers of SHA-256 (FIPS 180-4, appendix B) *)

Example sha256_abc :
  hex (Sha256.digest (list_byte_of_string "abc"))
  = lit "ba7816bf8f01cfea414140de5dae2223b00361a396177a9cb410ff61f20015ad".
Proof. vm_compute. reflexivity. Qed.

Example sha256_empty :
  hex (Sha256.digest [])
  = lit "e3b0c44298fc1c149afbf4c8996fb92427ae41e4649b934ca495991b7852b855".
Proof. vm_compute. reflexivity. Qed.

Example sha256_two_blocks :
  hex (Sha256.digest
         (list_byte_of_string
            "abcdbcdecdefdefgefghfghighijhijkijkljklmklmnlmnomnopnopq"))
  = lit "248d6a61d20638b8e5c026930c3e6039a33ce45964ff2167f6ecedd419db06c1".
Proof. vm_compute. reflexivity. Qed.

(** ** SHA-256 runs to the end and yields 32 bytes *)

(** The fuel of [blocks] never runs out: any amount that covers the words
    gives the same hash value. *)
Lemma blocks_fuel (f1 f2 : nat) (h ws : list N) :
  List.length ws <= f1 -> List.length ws <= f2 ->
  Sha256.blocks f1 h ws = Sha256.blocks f2 h ws.
Proof.
  revert f2 h ws. induction f1 as [|f1 IH]; intros f2 h ws H1 H2.
  - destruct ws; [|cbn [List.length] in H1; lia]. now destruct f2.
  - destruct f2 as [|f2].
    + destruct ws; [reflexivity|cbn [List.length] in H2; lia].
    + destruct ws as [|x ws']; [reflexivity|].
      cbn [Sha256.blocks]. apply IH; rewrite length_skipn; lia.
Qed.

Lemma compress_length (h block : list N) :
  List.length h = 8 -> List.length (Sha256.compress h block) = 8.
Proof.
  intros Hh. unfold Sha256.compress.
  now rewrite length_map, length_combine, Hh.
Qed.

Lemma blocks_length (fuel : nat) (h ws : list N) :
  List.length h = 8 -> List.length (Sha256.blocks fuel h ws) = 8.
Proof.
  revert h ws. induction fuel as [|fuel IH]; intros h ws Hh; [exact Hh|].
  destruct ws; [exact Hh|]. cbn [Sha256.blocks].
  now apply IH, compress_length.
Qed.

Lemma digest_length (msg : bytes) : List.length (Sha256.digest msg) = 32.
Proof.
  unfold Sha256.digest.
  pose proof (@blocks_length
                (List.length (Sha256.words_of_bytes (Sha256.pad_message msg)))
                Sha256.H0
                (Sha256.words_of_bytes (Sha256.pad_message msg))
                eq_refl) as H.
  destruct (Sha256.blocks _ Sha256.H0 _)
    as [|a [|b [|c [|d [|e [|f [|g [|i [|j l]]]]]]]]]; try discriminate H.
  reflexivity.
Qed.

(** ** Literals of the script are decoded as written *)

Example lit_ascii : lit "S256" = [83; 50; 53; 54]%N.
Proof. reflexivity. Qed.

Example lit_rocket : lit "🚀" = [0x1F680]%N.
Proof. reflexivity. Qed.

Example lit_information : lit "ℹ️ " = [0x2139; 0xFE0F; 32]%N.
Proof. reflexivity. Qed.

(** ** Finite checks *)

Lemma forallb_N_below (P : N -> bool) (k : nat) :
  forallb P (map N.of_nat (seq 0 k)) = true ->
  forall n, (n < N.of_nat k)%N -> P n = true.
Proof.
  intros H n Hn.
  rewrite forallb_forall in H. apply H.
  apply in_map_iff. exists (N.to_nat n). split.
  - apply N2Nat.id.
  - apply in_seq. lia.
Qed.

Lemma to_N_lt_256 (b : byte) : (Byte.to_N b < 256)%N.
Proof. pose proof (Byte.to_N_bounded b). lia. Qed.

Lemma byte_of_to_N (b : byte) : byte_of_N (Byte.to_N b) = b.
Proof.
  unfold byte_of_N. rewrite N.mod_small by apply to_N_lt_256.
  now rewrite Byte.of_to_N.
Qed.

Lemma to_N_inj (a b : byte) : Byte.to_N a = Byte.to_N b -> a = b.
Proof.
  intros H. rewrite <- (byte_of_to_N a), <- (byte_of_to_N b). now rewrite H.
Qed.

Lemma to_N_byte_of_N (n : N) : (n < 256)%N -> Byte.to_N (byte_of_N n) = n.
Proof.
  intros H. unfold byte_of_N. rewrite N.mod_small by assumption.
  destruct (Byte.of_N n) eqn:E.
  - now apply Byte.to_of_N.
  - apply Byte.of_N_None_iff in E. lia.
Qed.

(** ** [str] equality and [rstrip] *)

Lemma str_eqb_eq (a b : str) : str_eqb a b = true <-> a = b.
Proof.
  revert b. induction a as [|x a IH]; intros [|y b]; simpl; split; intros H;
    try reflexivity; try discriminate.
  - apply andb_true_iff in H. destruct H as [H1 H2].
    apply N.eqb_eq in H1. apply IH in H2. now subst.
  - injection H as -> ->. rewrite N.eqb_refl. simpl. now apply IH.
Qed.

Lemma str_eqb_refl (a : str) : str_eqb a a = true.
Proof. now apply str_eqb_eq. Qed.

Lemma rstrip_all (chars s : str) :
  Forall (fun c => str_mem c chars = true) s -> rstrip chars s = [].
Proof.
  induction 1 as [|c s Hc Hs IH]; simpl; [reflexivity|].
  now rewrite IH, Hc.
Qed.

Lemma rstrip_keeps (chars s : str) (c : N) :
  str_mem c chars = false -> rstrip chars (s ++ [c]) = s ++ [c].
Proof.
  intros Hc. induction s as [|x s IH]; simpl.
  - now rewrite Hc.
  - rewrite IH. destruct s; reflexivity.
Qed.

Lemma rstrip_app_all (chars s p : str) :
  Forall (fun c => str_mem c chars = true) p ->
  rstrip chars (s ++ p) = rstrip chars s.
Proof.
  intros Hp. induction s as [|x s IH]; simpl.
  - now apply rstrip_all.
  - now rewrite IH.
Qed.

(** A str none of whose characters is in [chars] is left as it is. *)
Lemma rstrip_none (chars s : str) :
  Forall (fun c => str_mem c chars = false) s -> rstrip chars s = s.
Proof.
  induction 1 as [|c s Hc Hs IH]; simpl; [reflexivity|].
  rewrite IH. destruct s; [now rewrite Hc | reflexivity].
Qed.

(** ** Base64: the code's encoder against the specification's *)

Section Base64Facts.

Local Open Scope N_scope.

Import Base64 Spec.

Ltac euclid := zify; Z.to_euclidean_division_equations; lia.

Lemma list_ind3 (A : Type) (P : list A -> Prop) :
  P [] -> (forall a, P [a]) -> (forall a b, P [a; b]) ->
  (forall a b c r, P r -> P (a :: b :: c :: r)) ->
  forall l, P l.
Proof.
  intros H0 H1 H2 H3 l.
  cut (P l /\ (forall a, P (a :: l)) /\ (forall a b, P (a :: b :: l))).
  { tauto. }
  induction l as [|x l [IH0 [IH1 IH2]]].
  - auto.
  - repeat split; auto.
Qed.

(** [P] holds below [k] when it holds of each of the [k] values. *)
Ltac below P k Hx :=
  let C := fresh "C" in
  assert (C : forallb P (map N.of_nat (seq 0 k)) = true)
    by (vm_compute; reflexivity);
  let H := fresh "H" in
  pose proof (@forallb_N_below P k C _ Hx) as H; cbv beta in H.

(** The 6-bit values of the code, as arithmetic on one byte. *)
Lemma bits_of_byte x :
  x < 256 ->
  N.shiftr x 2 = x / 4 /\ N.land x 3 = x mod 4 /\
  N.shiftr x 4 = x / 16 /\ N.land x 15 = x mod 16 /\
  N.shiftr x 6 = x / 64 /\ N.land x 63 = x mod 64.
Proof.
  intros Hx.
  below (fun x =>
    (N.shiftr x 2 =? x / 4) && (N.land x 3 =? x mod 4) &&
    (N.shiftr x 4 =? x / 16) && (N.land x 15 =? x mod 16) &&
    (N.shiftr x 6 =? x / 64) && (N.land x 63 =? x mod 64)) 256%nat Hx.
  repeat (apply andb_true_iff in H; destruct H as [H ?]).
  repeat split; now apply N.eqb_eq.
Qed.

Lemma lor_shift4 x y :
  x < 4 -> y < 16 -> N.lor (N.shiftl x 4) y = x * 16 + y.
Proof.
  intros Hx Hy.
  below (fun x => forallb (fun y => N.lor (N.shiftl x 4) y =? x * 16 + y)
                    (map N.of_nat (seq 0 16))) 4%nat Hx.
  apply N.eqb_eq.
  exact (@forallb_N_below (fun y => N.lor (N.shiftl x 4) y =? x * 16 + y) 16 H y Hy).
Qed.

Lemma lor_shift2 x y :
  x < 16 -> y < 4 -> N.lor (N.shiftl x 2) y = x * 4 + y.
Proof.
  intros Hx Hy.
  below (fun x => forallb (fun y => N.lor (N.shiftl x 2) y =? x * 4 + y)
                    (map N.of_nat (seq 0 4))) 16%nat Hx.
  apply N.eqb_eq.
  exact (@forallb_N_below (fun y => N.lor (N.shiftl x 2) y =? x * 4 + y) 4 H y Hy).
Qed.

(** The four 6-bit values of a full group. *)
Lemma sextets3 a b c :
  a < 256 -> b < 256 -> c < 256 ->
  let n := (a * 256 + b) * 256 + c in
  N.shiftr a 2 = n / 262144 /\
  N.lor (N.shiftl (N.land a 3) 4) (N.shiftr b 4) = (n / 4096) mod 64 /\
  N.lor (N.shiftl (N.land b 15) 2) (N.shiftr c 6) = (n / 64) mod 64 /\
  N.land c 63 = n mod 64.
Proof.
  intros Ha Hb Hc n. subst n.
  destruct (bits_of_byte Ha) as (A2 & A3 & _).
  destruct (bits_of_byte Hb) as (_ & _ & B4 & B15 & _).
  destruct (bits_of_byte Hc) as (_ & _ & _ & _ & C6 & C63).
  rewrite A2, A3, B4, B15, C6, C63.
  rewrite lor_shift4, lor_shift2 by euclid.
  repeat split; euclid.
Qed.

(** The three 6-bit values of a last group of two bytes. *)
Lemma sextets2 a b :
  a < 256 -> b < 256 ->
  let n := (a * 256 + b) * 4 in
  N.shiftr a 2 = n / 4096 /\
  N.lor (N.shiftl (N.land a 3) 4) (N.shiftr b 4) = (n / 64) mod 64 /\
  N.shiftl (N.land b 15) 2 = n mod 64.
Proof.
  intros Ha Hb n. subst n.
  destruct (bits_of_byte Ha) as (A2 & A3 & _).
  destruct (bits_of_byte Hb) as (_ & _ & B4 & B15 & _).
  rewrite A2, A3, B4, B15.
  rewrite lor_shift4 by euclid.
  rewrite <- (N.lor_0_r (N.shiftl (b mod 16) 2)).
  rewrite lor_shift2 by euclid.
  repeat split; euclid.
Qed.

(** The two 6-bit values of a last group of one byte. *)
Lemma sextets1 a :
  a < 256 ->
  let n := a * 16 in
  N.shiftr a 2 = n / 64 /\ N.shiftl (N.land a 3) 4 = n mod 64.
Proof.
  intros Ha n. subst n.
  destruct (bits_of_byte Ha) as (A2 & A3 & _).
  rewrite A2, A3.
  rewrite <- (N.lor_0_r (N.shiftl (a mod 4) 4)).
  rewrite lor_shift4 by euclid.
  split; euclid.
Qed.

(** The translated character of a 6-bit value is the one of the URL-safe
    alphabet. *)
Lemma urlsafe_char n :
  n < 64 -> Byte.to_N (urlsafe_translate (char n)) = url_char n.
Proof.
  intros Hn.
  below (fun n => Byte.to_N (urlsafe_translate (char n)) =? url_char n) 64%nat Hn.
  now apply N.eqb_eq.
Qed.

Lemma url_char_safe n : n < 64 -> is_urlsafe_char (url_char n) = true.
Proof.
  intros Hn.
  below (fun n => is_urlsafe_char (url_char n)) 64%nat Hn.
  exact H.
Qed.

Lemma url_char_inj n m : n < 64 -> m < 64 -> url_char n = url_char m -> n = m.
Proof.
  intros Hn Hm E.
  below (fun n => forallb (fun m => negb (url_char n =? url_char m) || (n =? m))
                    (map N.of_nat (seq 0 64))) 64%nat Hn.
  pose proof (@forallb_N_below
                (fun m => negb (url_char n =? url_char m) || (n =? m)) 64 H m Hm) as H'.
  cbv beta in H'. rewrite E, N.eqb_refl in H'. simpl in H'.
  now apply N.eqb_eq.
Qed.

Lemma url_char_not_pad n : n < 64 -> str_mem (url_char n) [61] = false.
Proof.
  intros Hn.
  below (fun n => negb (str_mem (url_char n) [61])) 64%nat Hn.
  now apply negb_true_iff.
Qed.

(** The code's encoder writes the specification's characters, then the
    padding. *)
Lemma urlsafe_b64encode_padded (bs : bytes) :
  exists k, map Byte.to_N (urlsafe_b64encode bs) = base64url_nopad bs ++ repeat 61 k.
Proof.
  unfold urlsafe_b64encode.
  induction bs as [|a|a b|a b c r [k IH]] using list_ind3.
  - exists 0%nat. reflexivity.
  - exists 2%nat. pose proof (to_N_lt_256 a).
    destruct (sextets1 (to_N_lt_256 a)) as (E1 & E2).
    cbn [b64encode base64url_nopad map app repeat].
    rewrite !urlsafe_char by (rewrite ?E1, ?E2; euclid).
    now rewrite E1, E2.
  - exists 1%nat. pose proof (to_N_lt_256 a). pose proof (to_N_lt_256 b).
    destruct (sextets2 (to_N_lt_256 a) (to_N_lt_256 b)) as (E1 & E2 & E3).
    cbn [b64encode base64url_nopad map app repeat].
    rewrite !urlsafe_char by (rewrite ?E1, ?E2, ?E3; euclid).
    now rewrite E1, E2, E3.
  - exists k. pose proof (to_N_lt_256 a). pose proof (to_N_lt_256 b).
    pose proof (to_N_lt_256 c).
    destruct (sextets3 (to_N_lt_256 a) (to_N_lt_256 b) (to_N_lt_256 c))
      as (E1 & E2 & E3 & E4).
    cbn [b64encode base64url_nopad map app].
    rewrite !urlsafe_char by (rewrite ?E1, ?E2, ?E3, ?E4; euclid).
    rewrite E1, E2, E3, E4, IH. reflexivity.
Qed.

(** Every character of the unpadded encoding is one of the 64 of the
    alphabet. *)
Lemma base64url_nopad_chars (bs : bytes) :
  Forall (fun c => exists n, n < 64 /\ c = url_char n) (base64url_nopad bs).
Proof.
  induction bs as [|a|a b|a b c r IH] using list_ind3;
    cbn [base64url_nopad].
  - constructor.
  - pose proof (to_N_lt_256 a).
    repeat constructor; eexists; (split; [|reflexivity]); euclid.
  - pose proof (to_N_lt_256 a). pose proof (to_N_lt_256 b).
    repeat constructor; eexists; (split; [|reflexivity]); euclid.
  - pose proof (to_N_lt_256 a). pose proof (to_N_lt_256 b).
    pose proof (to_N_lt_256 c).
    repeat (constructor; [eexists; (split; [|reflexivity]); euclid|]).
    exact IH.
Qed.

Lemma base64url_nopad_safe (bs : bytes) :
  Forall (fun c => is_urlsafe_char c = true) (base64url_nopad bs).
Proof.
  eapply Forall_impl; [|apply base64url_nopad_chars].
  intros c (n & Hn & ->). now apply url_char_safe.
Qed.

Lemma base64url_nopad_no_pad (bs : bytes) :
  Forall (fun c => str_mem c [61] = false) (base64url_nopad bs).
Proof.
  eapply Forall_impl; [|apply base64url_nopad_chars].
  intros c (n & Hn & ->). now apply url_char_not_pad.
Qed.

Lemma urlsafe_char_ascii c : is_urlsafe_char c = true -> c < 128.
Proof.
  unfold is_urlsafe_char. intros H.
  repeat (apply orb_true_iff in H; destruct H as [H|H]);
    repeat (apply andb_true_iff in H; destruct H as [H ?]);
    rewrite ?N.leb_le, ?N.eqb_eq in *; lia.
Qed.

(** A number is its 6-bit digits. *)
Lemma digits24 n :
  n = ((n / 262144 * 64 + (n / 4096) mod 64) * 64 + (n / 64) mod 64) * 64 + n mod 64.
Proof. euclid. Qed.

Lemma digits18 n :
  n = (n / 4096 * 64 + (n / 64) mod 64) * 64 + n mod 64.
Proof. euclid. Qed.

Lemma digits12 n : n = n / 64 * 64 + n mod 64.
Proof. euclid. Qed.

(** The unpadded encoding determines the bytes. *)
Lemma base64url_nopad_inj (x y : bytes) :
  base64url_nopad x = base64url_nopad y -> x = y.
Proof.
  revert y.
  induction x as [|a|a b|a b c r IH] using list_ind3;
    intros [|a' [|b' [|c' r']]]; cbn [base64url_nopad]; intros E;
    try discriminate; try reflexivity.
  - pose proof (to_N_lt_256 a). pose proof (to_N_lt_256 a').
    remember (Byte.to_N a * 16) as n eqn:En.
    remember (Byte.to_N a' * 16) as m eqn:Em.
    assert (n < 4096 /\ m < 4096) as [Hn Hm] by lia.
    injection E as E1 E2.
    apply url_char_inj in E1; [|euclid|euclid].
    apply url_char_inj in E2; [|euclid|euclid].
    assert (n = m) by (rewrite (digits12 n), (digits12 m); congruence).
    f_equal. apply to_N_inj. lia.
  - pose proof (to_N_lt_256 a). pose proof (to_N_lt_256 a').
    pose proof (to_N_lt_256 b). pose proof (to_N_lt_256 b').
    remember ((Byte.to_N a * 256 + Byte.to_N b) * 4) as n eqn:En.
    remember ((Byte.to_N a' * 256 + Byte.to_N b') * 4) as m eqn:Em.
    assert (n < 262144 /\ m < 262144) as [Hn Hm] by lia.
    injection E as E1 E2 E3.
    apply url_char_inj in E1; [|euclid|euclid].
    apply url_char_inj in E2; [|euclid|euclid].
    apply url_char_inj in E3; [|euclid|euclid].
    assert (n = m) by (rewrite (digits18 n), (digits18 m); congruence).
    assert (Byte.to_N a = Byte.to_N a' /\ Byte.to_N b = Byte.to_N b') as [Ea Eb]
      by lia.
    apply to_N_inj in Ea, Eb. now subst.
  - pose proof (to_N_lt_256 a). pose proof (to_N_lt_256 a').
    pose proof (to_N_lt_256 b). pose proof (to_N_lt_256 b').
    pose proof (to_N_lt_256 c). pose proof (to_N_lt_256 c').
    remember ((Byte.to_N a * 256 + Byte.to_N b) * 256 + Byte.to_N c) as n eqn:En.
    remember ((Byte.to_N a' * 256 + Byte.to_N b') * 256 + Byte.to_N c') as m eqn:Em.
    assert (n < 16777216 /\ m < 16777216) as [Hn Hm] by lia.
    injection E as E1 E2 E3 E4 E5.
    apply url_char_inj in E1; [|euclid|euclid].
    apply url_char_inj in E2; [|euclid|euclid].
    apply url_char_inj in E3; [|euclid|euclid].
    apply url_char_inj in E4; [|euclid|euclid].
    assert (n = m) by (rewrite (digits24 n), (digits24 m); congruence).
    assert (Byte.to_N a = Byte.to_N a' /\ Byte.to_N b = Byte.to_N b'
            /\ Byte.to_N c = Byte.to_N c') as (Ea & Eb & Ec) by lia.
    apply to_N_inj in Ea, Eb, Ec. apply IH in E5. now subst.
Qed.

End Base64Facts.

(** ** UTF-8 on ASCII text *)

Lemma decode_ascii (bs : bytes) :
  Forall (fun b => (Byte.to_N b < 128)%N) bs ->
  Utf8.decode bs = Some (map Byte.to_N bs).
Proof.
  induction 1 as [|b bs Hb Hbs IH]; [reflexivity|].
  cbn [Utf8.decode map].
  apply N.ltb_lt in Hb. rewrite Hb, IH. reflexivity.
Qed.

Lemma encode_ascii (s : str) :
  Forall (fun c => (c < 128)%N) s ->
  Utf8.encode s = Some (map byte_of_N s).
Proof.
  induction 1 as [|c s Hc Hs IH]; [reflexivity|].
  cbn [Utf8.encode map]. unfold Utf8.encode_cp.
  apply N.ltb_lt in Hc. rewrite Hc, IH. reflexivity.
Qed.

Lemma lit_pad : lit "=" = [61%N].
Proof. reflexivity. Qed.

(** The text [urlsafe_b64encode(bs).decode('utf-8')]: decoding never fails,
    and the text is the unpadded encoding followed by padding. *)
Lemma urlsafe_b64encode_text (bs : bytes) :
  exists k, Utf8.decode (Base64.urlsafe_b64encode bs)
            = Some (Spec.base64url_nopad bs ++ repeat 61%N k).
Proof.
  destruct (urlsafe_b64encode_padded bs) as [k Hk].
  exists k. rewrite <- Hk. apply decode_ascii.
  apply Forall_forall. intros b Hb.
  assert (In (Byte.to_N b) (Spec.base64url_nopad bs ++ repeat 61%N k)) as Hin
    by (rewrite <- Hk; now apply in_map).
  apply in_app_or in Hin. destruct Hin as [Hin|Hin].
  - apply urlsafe_char_ascii.
    pose proof (base64url_nopad_safe bs) as Hs.
    rewrite Forall_forall in Hs. now apply Hs.
  - apply repeat_spec in Hin. rewrite Hin. reflexivity.
Qed.

(** [rstrip('=')] removes exactly the padding. *)
Lemma rstrip_padding (bs : bytes) (k : nat) :
  rstrip (lit "=") (Spec.base64url_nopad bs ++ repeat 61%N k)
  = Spec.base64url_nopad bs.
Proof.
  rewrite lit_pad, rstrip_app_all.
  - apply rstrip_none, base64url_nopad_no_pad.
  - apply Forall_forall. intros c Hc. apply repeat_spec in Hc. now subst.
Qed.

Lemma base64url_nopad_ascii (bs : bytes) :
  Forall (fun c => (c < 128)%N) (Spec.base64url_nopad bs).
Proof.
  eapply Forall_impl; [|apply base64url_nopad_safe].
  intros c. apply urlsafe_char_ascii.
Qed.

(** ** [generate_pkce] *)

(** What a call of [generate_pkce] returns and the world it leaves, in terms
    of the 32 bytes it draws. *)
Lemma generate_pkce_run (w : World) :
  let rnd := map (entropy w) (seq (drawn w) 32) in
  let verifier := Spec.base64url_nopad rnd in
  let challenge := Spec.base64url_nopad (Sha256.digest (map byte_of_N verifier)) in
  generate_pkce w =
  (Returned [(lit "code_verifier", verifier);
             (lit "code_challenge", challenge);
             (lit "code_challenge_method", lit "S256")],
   {| client := {| access_token := access_token (client w);
                   code_verifier := Some verifier;
                   state := state (client w);
                   session := session (client w) |};
      entropy := entropy w; drawn := drawn w + 32;
      stdout := stdout w; requests := requests w; network := network w |}).
Proof.
  intros rnd verifier challenge. subst verifier challenge.
  destruct (urlsafe_b64encode_text rnd) as [k Hk].
  destruct (urlsafe_b64encode_text
              (Sha256.digest (map byte_of_N (Spec.base64url_nopad rnd)))) as [k' Hk'].
  unfold generate_pkce, bind, token_bytes, decode_utf8, encode_utf8.
  fold rnd. rewrite Hk. cbn [expect ret].
  rewrite rstrip_padding.
  unfold set_code_verifier, modify_client, read_client.
  cbn [client code_verifier expect ret].
  rewrite (encode_ascii (base64url_nopad_ascii rnd)).
  cbn [expect ret]. rewrite Hk'. cbn [expect ret].
  rewrite rstrip_padding. reflexivity.
Qed.

(** The known answer of RFC 7636, appendix B. *)
Example generate_pkce_rfc7636 :
  fst (generate_pkce (Sample.world init Sample.rfc7636_octets ConnectionFailed))
  = Returned [(lit "code_verifier", lit "dBjftJeZ4CVP-mB92K27uhbUJU1p1r_wW1gFWFOEjXk");
              (lit "code_challenge", lit "E9Melhoa2OwvFrEMTJguCHaoeK1t8URWbuGJSstw-cM");
              (lit "code_challenge_method", lit "S256")].
Proof. vm_compute. reflexivity. Qed.

(** C1. Every call of [generate_pkce] returns a dict whose code_challenge is
    the unpadded URL-safe base64 encoding of the SHA-256 digest of the UTF-8
    bytes of its code_verifier, whose code_challenge_method is "S256", and
    whose code_verifier is the value left in [self.code_verifier]. *)
Theorem generate_pkce_challenge (w : World) :
  exists verifier challenge bs w',
    generate_pkce w
    = (Returned [(lit "code_verifier", verifier);
                 (lit "code_challenge", challenge);
                 (lit "code_challenge_method", lit "S256")], w') /\
    Utf8.encode verifier = Some bs /\
    challenge = Spec.base64url_nopad (Sha256.digest bs) /\
    code_verifier (client w') = Some verifier.
Proof.
  pose proof (generate_pkce_run w) as Hrun. cbv zeta in Hrun.
  set (rnd := map (entropy w) (seq (drawn w) 32)) in *.
  exists (Spec.base64url_nopad rnd).
  eexists. exists (map byte_of_N (Spec.base64url_nopad rnd)). eexists.
  split; [exact Hrun|].
  split; [apply encode_ascii, base64url_nopad_ascii|].
  split; reflexivity.
Qed.

Lemma urlsafe_no_pad (s : str) :
  Forall (fun c => Spec.is_urlsafe_char c = true) s -> ~ In 61%N s.
Proof.
  intros H Hin. rewrite Forall_forall in H. apply H in Hin. discriminate.
Qed.

(** C4. The code_verifier and the code_challenge that [generate_pkce]
    returns hold no '=' and only characters of the URL-safe base64 alphabet
    (A-Z, a-z, 0-9, '-', '_'). *)
Theorem generate_pkce_alphabet (w : World) :
  exists verifier challenge w',
    generate_pkce w
    = (Returned [(lit "code_verifier", verifier);
                 (lit "code_challenge", challenge);
                 (lit "code_challenge_method", lit "S256")], w') /\
    Forall (fun c => Spec.is_urlsafe_char c = true) verifier /\
    Forall (fun c => Spec.is_urlsafe_char c = true) challenge /\
    ~ In 61%N verifier /\ ~ In 61%N challenge.
Proof.
  pose proof (generate_pkce_run w) as Hrun. cbv zeta in Hrun.
  do 3 eexists. split; [exact Hrun|].
  repeat split;
    try apply urlsafe_no_pad; apply base64url_nopad_safe.
Qed.

Lemma Returned_inj (A : Type) (a b : A) (w w' : World) :
  (Returned a, w) = (Returned b, w') -> a = b /\ w = w'.
Proof. intros H. injection H as -> ->. now split. Qed.

(** Reading the dict that [generate_pkce] returns. *)
Lemma pkce_params_lookup (v c m : str) :
  let d := [(lit "code_verifier", v); (lit "code_challenge", c);
            (lit "code_challenge_method", m)] in
  lookup (lit "code_verifier") d = Some v /\
  lookup (lit "code_challenge") d = Some c /\
  lookup (lit "code_challenge_method") d = Some m.
Proof. repeat split. Qed.

(** Two draws that differ give verifiers that differ, whatever else the two
    worlds hold. *)
Lemma generate_pkce_verifier_inj (w1 w2 : World) :
  map (entropy w1) (seq (drawn w1) 32) <> map (entropy w2) (seq (drawn w2) 32) ->
  forall d1 d2 w1' w2',
    generate_pkce w1 = (Returned d1, w1') ->
    generate_pkce w2 = (Returned d2, w2') ->
    lookup (lit "code_verifier") d1 <> lookup (lit "code_verifier") d2.
Proof.
  intros Hne d1 d2 w1' w2' H1 H2.
  rewrite generate_pkce_run in H1, H2.
  apply Returned_inj in H1, H2. destruct H1 as [<- _]. destruct H2 as [<- _].
  match goal with
  | |- lookup _ [(_, ?v1); (_, ?c1); (_, ?m1)]
       <> lookup _ [(_, ?v2); (_, ?c2); (_, ?m2)] =>
    destruct (pkce_params_lookup v1 c1 m1) as (-> & _);
    destruct (pkce_params_lookup v2 c2 m2) as (-> & _)
  end.
  intros E. apply Hne, base64url_nopad_inj. congruence.
Qed.

(** The challenges of two calls differ exactly when the digests of the two
    verifiers do. *)
Lemma generate_pkce_challenge_inj (w1 w2 : World) :
  forall d1 d2 w1' w2' v1 v2 b1 b2,
    generate_pkce w1 = (Returned d1, w1') ->
    generate_pkce w2 = (Returned d2, w2') ->
    lookup (lit "code_verifier") d1 = Some v1 ->
    lookup (lit "code_verifier") d2 = Some v2 ->
    Utf8.encode v1 = Some b1 -> Utf8.encode v2 = Some b2 ->
    (lookup (lit "code_challenge") d1 = lookup (lit "code_challenge") d2
     <-> Sha256.digest b1 = Sha256.digest b2).
Proof.
  intros d1 d2 w1' w2' v1 v2 b1 b2 H1 H2 L1 L2 E1 E2.
  rewrite generate_pkce_run in H1, H2.
  apply Returned_inj in H1, H2. destruct H1 as [<- _]. destruct H2 as [<- _].
  revert L1 L2.
  match goal with
  | |- lookup _ [(_, ?x1); (_, ?c1); (_, ?m1)] = _ ->
       lookup _ [(_, ?x2); (_, ?c2); (_, ?m2)] = _ -> _ =>
    destruct (pkce_params_lookup x1 c1 m1) as (-> & -> & _);
    destruct (pkce_params_lookup x2 c2 m2) as (-> & -> & _)
  end.
  intros L1 L2.
  assert (Spec.base64url_nopad (map (entropy w1) (seq (drawn w1) 32)) = v1)
    as <- by congruence.
  assert (Spec.base64url_nopad (map (entropy w2) (seq (drawn w2) 32)) = v2)
    as <- by congruence.
  rewrite (encode_ascii (base64url_nopad_ascii _)) in E1.
  rewrite (encode_ascii (base64url_nopad_ascii _)) in E2.
  assert (map byte_of_N (Spec.base64url_nopad (map (entropy w1) (seq (drawn w1) 32))) = b1)
    as <- by congruence.
  assert (map byte_of_N (Spec.base64url_nopad (map (entropy w2) (seq (drawn w2) 32))) = b2)
    as <- by congruence.
  split.
  - intros E. apply base64url_nopad_inj. congruence.
  - intros E. now rewrite E.
Qed.

(** ** [generate_state] *)

Lemma hex_digit_is_hex (n : N) :
  (n < 16)%N -> Spec.is_hex_char (hex_digit n) = true.
Proof.
  intros Hn.
  apply (@forallb_N_below (fun n => Spec.is_hex_char (hex_digit n)) 16);
    [vm_compute; reflexivity | exact Hn].
Qed.

Lemma hex_chars (bs : bytes) :
  Forall (fun c => Spec.is_hex_char c = true) (hex bs).
Proof.
  unfold hex. induction bs as [|b bs IH]; cbn [flat_map app]; [constructor|].
  pose proof (to_N_lt_256 b).
  constructor; [|constructor; [|exact IH]]; apply hex_digit_is_hex.
  - apply N.Div0.div_lt_upper_bound. lia.
  - apply N.mod_lt. lia.
Qed.

Lemma hex_length (bs : bytes) : List.length (hex bs) = 2 * List.length bs.
Proof.
  unfold hex. induction bs as [|b bs IH]; cbn [flat_map app List.length]; lia.
Qed.

(** What a call of [generate_state] returns and the world it leaves, in
    terms of the 16 bytes it draws. *)
Lemma generate_state_run (w : World) :
  let tok := hex (map (entropy w) (seq (drawn w) 16)) in
  generate_state w =
  (Returned tok,
   {| client := {| access_token := access_token (client w);
                   code_verifier := code_verifier (client w);
                   state := Some tok;
                   session := session (client w) |};
      entropy := entropy w; drawn := drawn w + 16;
      stdout := stdout w; requests := requests w; network := network w |}).
Proof. reflexivity. Qed.

(** C8. Every call of [generate_state] returns a string of hexadecimal
    characters (0-9, a-f) and leaves that same string in [self.state]; the
    token is the hexadecimal form of the next 16 bytes of the secure random
    source, which the call consumes, so that it comes from a new draw and
    not from the state of an earlier attempt. *)
Theorem generate_state_token (w : World) :
  let tok := hex (map (entropy w) (seq (drawn w) 16)) in
  exists w',
    generate_state w = (Returned tok, w') /\
    Forall (fun c => Spec.is_hex_char c = true) tok /\
    List.length tok = 32 /\
    state (client w') = Some tok /\
    entropy w' = entropy w /\ drawn w' = drawn w + 16.
Proof.
  intros tok. eexists. split; [apply generate_state_run|].
  split; [apply hex_chars|].
  split; [|repeat split].
  unfold tok. now rewrite hex_length, length_map, length_seq.
Qed.

(** Two calls in a row: the second token comes from the 16 bytes after
    those of the first, and replaces it in [self.state]. *)
Lemma generate_state_twice (w : World) :
  exists w',
    (t1 <- generate_state ;; t2 <- generate_state ;; ret (t1, t2)) w
    = (Returned (hex (map (entropy w) (seq (drawn w) 16)),
                 hex (map (entropy w) (seq (drawn w + 16) 16))), w') /\
    state (client w') = Some (hex (map (entropy w) (seq (drawn w + 16) 16))).
Proof. eexists. split; reflexivity. Qed.

(** C10. [generate_pkce] writes no field of the client but code_verifier,
    and [generate_state] none but state: access_token, session and the
    other of the two fields are what they were before the call. *)
Theorem generate_frame (w : World) :
  (exists d w',
     generate_pkce w = (Returned d, w') /\
     access_token (client w') = access_token (client w) /\
     state (client w') = state (client w) /\
     session (client w') = session (client w)) /\
  (exists t w',
     generate_state w = (Returned t, w') /\
     access_token (client w') = access_token (client w) /\
     code_verifier (client w') = code_verifier (client w) /\
     session (client w') = session (client w)).
Proof.
  split.
  - do 2 eexists. split; [apply generate_pkce_run|]. repeat split.
  - do 2 eexists. split; [apply generate_state_run|]. repeat split.
Qed.

(** ** [handle_callback] *)

Lemma differs_spec (a b : option str) : differs a b = true <-> a <> b.
Proof.
  destruct a as [x|], b as [y|]; simpl; split; intros H;
    try congruence; try reflexivity.
  - apply negb_true_iff in H. intros E. injection E as ->.
    now rewrite str_eqb_refl in H.
  - apply negb_true_iff. destruct (str_eqb x y) eqn:E; [|reflexivity].
    apply str_eqb_eq in E. congruence.
Qed.

Lemma differs_false (a b : option str) : differs a b = false <-> a = b.
Proof.
  split; intros H.
  - destruct (differs a b) eqn:E; [discriminate|].
    destruct a as [x|], b as [y|]; simpl in E; try discriminate; try reflexivity.
    apply negb_false_iff, str_eqb_eq in E. now subst.
  - destruct (differs a b) eqn:E; [|reflexivity].
    apply differs_spec in E. contradiction.
Qed.

(** The four answers of the handler, in the order of its checks. *)
Lemma handle_callback_cases (w : World) (query : list (str * str)) :
  (forall err, lookup (lit "error") query = Some err ->
     fst (handle_callback query w)
     = Returned {| Web.text := authorization_error_text err;
                   Web.content_type := lit "text/html"; Web.status := 400 |}) /\
  (lookup (lit "error") query = None ->
   lookup (lit "state") query <> state (client w) ->
     fst (handle_callback query w)
     = Returned {| Web.text := invalid_state_text;
                   Web.content_type := lit "text/html"; Web.status := 400 |}) /\
  (lookup (lit "error") query = None ->
   lookup (lit "state") query = state (client w) ->
   (lookup (lit "code") query = None \/ lookup (lit "code") query = Some []) ->
     fst (handle_callback query w)
     = Returned {| Web.text := missing_code_text;
                   Web.content_type := lit "text/html"; Web.status := 400 |}) /\
  (lookup (lit "error") query = None ->
   lookup (lit "state") query = state (client w) ->
   forall code, lookup (lit "code") query = Some code -> code <> [] ->
     fst (handle_callback query w)
     = Returned {| Web.text := success_text;
                   Web.content_type := lit "text/html"; Web.status := 200 |}).
Proof.
  unfold handle_callback, contains.
  repeat split.
  - intros err E. rewrite E. reflexivity.
  - intros E Hs. rewrite E. apply differs_spec in Hs.
    unfold bind, read_client. rewrite Hs. reflexivity.
  - intros E Hs Hc. rewrite E. apply differs_false in Hs.
    unfold bind, read_client. rewrite Hs.
    destruct Hc as [-> | ->]; reflexivity.
  - intros E Hs code Hc Hne. rewrite E. apply differs_false in Hs.
    unfold bind, read_client. rewrite Hs, Hc.
    destruct code; [contradiction|]. reflexivity.
Qed.

Lemma authorization_error_is_not_invalid_state (err : str) :
  authorization_error_text err <> invalid_state_text.
Proof. intros H. vm_compute in H. discriminate. Qed.

(** C2, as the handler orders its checks. A query with an error parameter
    is answered 400. Without an error parameter: a state that is not the
    stored one is answered 400 with "Invalid State" in the body; a matching
    state with no code, or an empty one, is answered 400 with "Missing Code"
    in the body; a matching state with a non-empty code is answered 200. *)
Theorem handle_callback_status (w : World) (query : list (str * str)) :
  (forall err, lookup (lit "error") query = Some err ->
     exists r, fst (handle_callback query w) = Returned r /\
               Web.status r = 400%Z) /\
  (lookup (lit "error") query = None ->
   lookup (lit "state") query <> state (client w) ->
     exists r, fst (handle_callback query w) = Returned r /\
               Web.status r = 400%Z /\
               Spec.occurs_in (lit "Invalid State") (Web.text r) = true) /\
  (lookup (lit "error") query = None ->
   lookup (lit "state") query = state (client w) ->
   (lookup (lit "code") query = None \/ lookup (lit "code") query = Some []) ->
     exists r, fst (handle_callback query w) = Returned r /\
               Web.status r = 400%Z /\
               Spec.occurs_in (lit "Missing Code") (Web.text r) = true) /\
  (lookup (lit "error") query = None ->
   lookup (lit "state") query = state (client w) ->
   forall code, lookup (lit "code") query = Some code -> code <> [] ->
     exists r, fst (handle_callback query w) = Returned r /\
               Web.status r = 200%Z).
Proof.
  destruct (handle_callback_cases w query) as (H1 & H2 & H3 & H4).
  repeat split.
  - intros err E. eexists. split; [exact (H1 err E)|reflexivity].
  - intros E Hs. eexists. split; [exact (H2 E Hs)|]. split; reflexivity.
  - intros E Hs Hc. eexists. split; [exact (H3 E Hs Hc)|]. split; reflexivity.
  - intros E Hs code Hc Hne. eexists. split; [exact (H4 E Hs code Hc Hne)|reflexivity].
Qed.

(** One query for each of the four answers. *)
Lemma handle_callback_status_witness :
  (exists r, fst (handle_callback Sample.denied_and_forged Sample.awaiting) = Returned r /\
             Web.status r = 400%Z) /\
  (exists r, fst (handle_callback Sample.forged Sample.awaiting) = Returned r /\
             Web.status r = 400%Z /\
             Spec.occurs_in (lit "Invalid State") (Web.text r) = true) /\
  (exists r, fst (handle_callback Sample.without_code Sample.awaiting) = Returned r /\
             Web.status r = 400%Z /\
             Spec.occurs_in (lit "Missing Code") (Web.text r) = true) /\
  (exists r, fst (handle_callback Sample.granted Sample.awaiting) = Returned r /\
             Web.status r = 200%Z).
Proof.
  split; [|split; [|split]].
  - apply (proj1 (handle_callback_status Sample.awaiting Sample.denied_and_forged)
             (lit "access_denied")).
    reflexivity.
  - apply (proj1 (proj2 (handle_callback_status Sample.awaiting Sample.forged))).
    + reflexivity.
    + vm_compute. discriminate.
  - apply (proj1 (proj2 (proj2
             (handle_callback_status Sample.awaiting Sample.without_code)))).
    + reflexivity.
    + reflexivity.
    + left. reflexivity.
  - apply (proj2 (proj2 (proj2
             (handle_callback_status Sample.awaiting Sample.granted)))
             eq_refl eq_refl (lit "abc123")).
    + reflexivity.
    + vm_compute. discriminate.
Defined.

(** The claim as first stated fails: with an error parameter in the query,
    a state that is not the stored one is answered without any "Invalid
    State" in the body. *)
Lemma handle_callback_error_hides_state_mismatch :
  lookup (lit "state") Sample.denied_and_forged <> state (client Sample.awaiting) /\
  exists r,
    fst (handle_callback Sample.denied_and_forged Sample.awaiting) = Returned r /\
    Web.text r = lit "<h1>Authorization Error</h1><p>access_denied</p>" /\
    Spec.occurs_in (lit "Invalid State") (Web.text r) = false.
Proof.
  split; [vm_compute; discriminate|].
  eexists. split; [vm_compute; reflexivity|]. split; vm_compute; reflexivity.
Qed.

(** Nor is a query with neither code nor error answered "Missing Code" when
    its state is not the stored one. *)
Lemma handle_callback_state_checked_before_code :
  lookup (lit "error") [(lit "state", lit "forged")] = None /\
  lookup (lit "code") [(lit "state", lit "forged")] = None /\
  exists r,
    fst (handle_callback [(lit "state", lit "forged")] Sample.awaiting) = Returned r /\
    Web.text r = invalid_state_text /\
    Spec.occurs_in (lit "Missing Code") (Web.text r) = false.
Proof.
  split; [reflexivity|]. split; [reflexivity|].
  eexists. split; [vm_compute; reflexivity|]. split; vm_compute; reflexivity.
Qed.

(** C9. The handler checks error, then state, then code: a query with an
    error parameter is answered with the 400 "Authorization Error" response
    whatever its state and code are, and the "Invalid State" body is given
    only to a query without an error parameter whose state is not the
    stored one. *)
Theorem handle_callback_order (w : World) (query : list (str * str)) :
  (forall err, lookup (lit "error") query = Some err ->
     fst (handle_callback query w)
     = Returned {| Web.text := authorization_error_text err;
                   Web.content_type := lit "text/html"; Web.status := 400 |}) /\
  (forall r, fst (handle_callback query w) = Returned r ->
     Web.text r = invalid_state_text ->
     lookup (lit "error") query = None /\
     lookup (lit "state") query <> state (client w)).
Proof.
  destruct (handle_callback_cases w query) as (H1 & H2 & H3 & H4).
  split; [exact H1|].
  intros r Hr Ht.
  destruct (lookup (lit "error") query) as [err|] eqn:E.
  - rewrite (H1 err eq_refl) in Hr. injection Hr as <-.
    now apply authorization_error_is_not_invalid_state in Ht.
  - split; [reflexivity|]. intros Hs.
    destruct (lookup (lit "code") query) as [[|c code]|] eqn:Ec.
    + rewrite (H3 eq_refl Hs (or_intror eq_refl)) in Hr. injection Hr as <-.
      vm_compute in Ht. discriminate.
    + rewrite (H4 eq_refl Hs (c :: code) eq_refl) in Hr by discriminate.
      injection Hr as <-. vm_compute in Ht. discriminate.
    + rewrite (H3 eq_refl Hs (or_introl eq_refl)) in Hr. injection Hr as <-.
      vm_compute in Ht. discriminate.
Qed.

(** An error with a forged state and no code gets the "Authorization Error"
    answer; the "Invalid State" answer comes from a query without error. *)
Lemma handle_callback_order_witness :
  fst (handle_callback Sample.denied_and_forged Sample.awaiting)
  = Returned {| Web.text := authorization_error_text (lit "access_denied");
                Web.content_type := lit "text/html"; Web.status := 400 |} /\
  (lookup (lit "error") Sample.forged = None /\
   lookup (lit "state") Sample.forged <> state (client Sample.awaiting)).
Proof.
  split.
  - apply (proj1 (handle_callback_order Sample.awaiting Sample.denied_and_forged)).
    reflexivity.
  - apply (proj2 (handle_callback_order Sample.awaiting Sample.forged)
             {| Web.text := invalid_state_text;
                Web.content_type := lit "text/html"; Web.status := 400 |}).
    + vm_compute. reflexivity.
    + reflexivity.
Defined.

(** ** The HTTP operations *)

Lemma send_replies (w : World) (s : ClientSession) (rq : Request) (r : ClientResponse) :
  closed s = false ->
  network w (requests w ++ [rq]) = Responds r ->
  send (Some s) rq w
  = (Returned r,
     {| client := client w; entropy := entropy w; drawn := drawn w;
        stdout := stdout w; requests := requests w ++ [rq];
        network := network w |}).
Proof. intros Hc Hn. unfold send. rewrite Hc. cbv zeta. now rewrite Hn. Qed.

Lemma not_ok (r : ClientResponse) : (400 <= status r)%Z -> ok r = false.
Proof. intros H. unfold ok. apply Z.ltb_ge. exact H. Qed.

Lemma answers_print (w : World) (r : ClientResponse) (line : str) :
  answers w r -> answers (snd (print line w)) r.
Proof. intros (s & Hs & Hc & Hn). exists s. repeat split; assumption. Qed.

Lemma bind_raised (A B : Type) (m : M A) (k : A -> M B) (w : World) (e : exn) :
  fst (m w) = Raised e -> fst (bind m k w) = Raised e.
Proof.
  unfold bind. destruct (m w) as [[a|e'] w']; cbn [fst]; intros H;
    [discriminate|].
  injection H as ->. reflexivity.
Qed.

Lemma bind_print (A : Type) (line : str) (k : M A) (w : World) :
  (print line ;; k) w = k (snd (print line w)).
Proof. reflexivity. Qed.

(** Runs an operation up to the response it receives: the line it prints
    first, the session it reads and the request it sends. *)
Ltac receive Hs Hc Hn :=
  unfold print at 1, read_client;
  cbn [client session]; rewrite Hs;
  erewrite send_replies; [|exact Hc|cbn [network requests]; apply Hn].

Lemma discover_endpoints_fails (url : str) (repr : json -> str)
      (w : World) (r : ClientResponse) :
  answers w r -> (400 <= status r)%Z ->
  fst (discover_endpoints url repr w)
  = Raised (Exception (lit "Discovery failed: " ++ str_of_int (status r))).
Proof.
  intros (s & Hs & Hc & Hn) Hst. unfold discover_endpoints.
  unfold bind at 1 2 3. receive Hs Hc Hn.
  rewrite (not_ok _ Hst). reflexivity.
Qed.





Lemma store_api_key_unauthorized (url api_key base_url : str)
      (w : World) (r : ClientResponse) :
  answers w r -> status r = 401%Z ->
  fst (store_api_key url api_key base_url w) = Returned false.
Proof.
  intros (s & Hs & Hc & Hn) Hst. unfold store_api_key.
  unfold bind at 1 2 3 4. receive Hs Hc Hn.
  rewrite Hst. reflexivity.
Qed.

Lemma get_api_key_metadata_unauthorized (url : str) (repr : json -> str)
      (w : World) (r : ClientResponse) :
  answers w r -> status r = 401%Z ->
  fst (get_api_key_metadata url repr w) = Returned None.
Proof.
  intros (s & Hs & Hc & Hn) Hst. unfold get_api_key_metadata.
  unfold bind at 1 2 3 4. receive Hs Hc Hn.
  rewrite Hst. reflexivity.
Qed.

Lemma make_mcp_request_unauthorized (url : str)
      (w : World) (r : ClientResponse) :
  answers w r -> status r = 401%Z ->
  fst (make_mcp_request url w) = Returned None.
Proof.
  intros (s & Hs & Hc & Hn) Hst. unfold make_mcp_request.
  unfold bind at 1 2 3 4. receive Hs Hc Hn.
  rewrite Hst. reflexivity.
Qed.



(** C6. A 401 answer makes none of [store_api_key], [get_api_key_metadata]
    and [make_mcp_request] raise: each returns at once, [False] for the
    first and [None] for the other two. *)
Theorem unauthorized_returns_sentinel (url : str) (repr : json -> str)
        (w : World) (r : ClientResponse) :
  answers w r -> status r = 401%Z ->
  (forall api_key base_url,
     fst (store_api_key url api_key base_url w) = Returned false) /\
  fst (get_api_key_metadata url repr w) = Returned None /\
  fst (make_mcp_request url w) = Returned None.
Proof.
  intros Ha Hst. split; [|split].
  - intros api_key base_url. now apply store_api_key_unauthorized with (r := r).
  - now apply get_api_key_metadata_unauthorized with (r := r).
  - now apply make_mcp_request_unauthorized with (r := r).
Qed.

Lemma answers_sample (c : OAuthClient) (s : ClientSession) (rnd : bytes)
      (r : ClientResponse) :
  session c = Some s -> closed s = false ->
  answers (Sample.world c rnd (Responds r)) r.
Proof. intros Hs Hc. exists s. repeat split; assumption. Qed.

Lemma unauthorized_returns_sentinel_witness :
  (forall api_key base_url,
     fst (store_api_key Sample.server_url api_key base_url Sample.unauthorized)
     = Returned false) /\
  fst (get_api_key_metadata Sample.server_url Sample.no_repr Sample.unauthorized)
  = Returned None /\
  fst (make_mcp_request Sample.server_url Sample.unauthorized) = Returned None.
Proof.
  apply (@unauthorized_returns_sentinel Sample.server_url Sample.no_repr
           Sample.unauthorized (Sample.plain 401 "Unauthorized")).
  - exists {| closed := false |}. repeat split; reflexivity.
  - reflexivity.
Defined.




(** Nor does a status below 400 that is not 2xx raise: [response.ok] holds
    of it. *)
Lemma discover_endpoints_accepts_304 :
  fst (discover_endpoints Sample.server_url Sample.no_repr Sample.not_modified)
  = Returned Sample.resource_metadata.
Proof. vm_compute. reflexivity. Qed.

(** ** [urlencode] on the authorization parameters *)

Lemma always_safe_ascii (c : N) :
  str_mem c Urllib.always_safe = true -> (c < 128)%N.
Proof.
  intros H. destruct (N.ltb_spec c 128) as [Hlt|Hge]; [exact Hlt|].
  exfalso. unfold str_mem in H. apply existsb_exists in H.
  destruct H as (x & Hin & Hx). apply N.eqb_eq in Hx. subst x.
  assert (Hall : forallb (fun x => (x <? 128)%N) Urllib.always_safe = true)
    by (vm_compute; reflexivity).
  rewrite forallb_forall in Hall. apply Hall in Hin. apply N.ltb_lt in Hin. lia.
Qed.

Lemma space_is_not_safe : str_mem 32%N Urllib.always_safe = false.
Proof. vm_compute. reflexivity. Qed.

Lemma quote_safe (s : str) :
  Forall (fun c => str_mem c Urllib.always_safe = true) s ->
  Urllib.quote [] s = Some s.
Proof.
  intros H. unfold Urllib.quote.
  rewrite encode_ascii.
  - cbn [option_map]. f_equal.
    induction H as [|c s Hc Hs IH]; [reflexivity|].
    cbn [map flat_map]. rewrite IH. unfold Urllib.quote_byte.
    rewrite to_N_byte_of_N by (apply always_safe_ascii in Hc; lia).
    rewrite Hc. reflexivity.
  - eapply Forall_impl; [|exact H]. apply always_safe_ascii.
Qed.

Lemma quote_plus_safe (s : str) :
  Forall (fun c => str_mem c Urllib.always_safe = true) s ->
  Urllib.quote_plus s = Some s.
Proof.
  intros H. unfold Urllib.quote_plus.
  replace (str_mem 32%N s) with false; [now apply quote_safe|].
  symmetry. unfold str_mem. apply not_true_is_false. intros E.
  apply existsb_exists in E. destruct E as (x & Hin & Hx).
  apply N.eqb_eq in Hx. subst x.
  rewrite Forall_forall in H. apply H in Hin.
  rewrite space_is_not_safe in Hin. discriminate.
Qed.

Lemma urlsafe_is_always_safe (c : N) :
  Spec.is_urlsafe_char c = true -> str_mem c Urllib.always_safe = true.
Proof.
  intros H. pose proof (urlsafe_char_ascii _ H) as Hc.
  pose proof (@forallb_N_below
    (fun c => negb (Spec.is_urlsafe_char c) || str_mem c Urllib.always_safe) 128) as Hall.
  cbv beta in Hall. specialize (Hall ltac:(vm_compute; reflexivity) c Hc).
  rewrite H in Hall. exact Hall.
Qed.

Lemma hex_is_always_safe (c : N) :
  Spec.is_hex_char c = true -> str_mem c Urllib.always_safe = true.
Proof.
  intros H.
  assert (Hc : (c < 128)%N).
  { unfold Spec.is_hex_char in H.
    apply orb_true_iff in H. destruct H as [H|H];
      apply andb_true_iff in H; destruct H as [_ H]; apply N.leb_le in H; lia. }
  pose proof (@forallb_N_below
    (fun c => negb (Spec.is_hex_char c) || str_mem c Urllib.always_safe) 128) as Hall.
  cbv beta in Hall. specialize (Hall ltac:(vm_compute; reflexivity) c Hc).
  rewrite H in Hall. exact Hall.
Qed.

Lemma quote_pairs_cons (k v k' v' : str) (rest : list (str * str)) :
  Urllib.quote_plus k = Some k' -> Urllib.quote_plus v = Some v' ->
  Urllib.quote_pairs ((k, v) :: rest)
  = option_map (cons (k' ++ [61%N] ++ v')) (Urllib.quote_pairs rest).
Proof.
  intros Hk Hv. cbn [Urllib.quote_pairs]. rewrite Hk, Hv.
  destruct (Urllib.quote_pairs rest); reflexivity.
Qed.

Lemma urlencode_auth_params (challenge state : str) :
  Urllib.quote_plus challenge = Some challenge ->
  Urllib.quote_plus state = Some state ->
  Urllib.urlencode (auth_params challenge (lit "S256") state)
  = Some (lit "response_type=code&client_id=YOUR_CLIENT_ID&redirect_uri=http%3A%2F%2Flocalhost%3A8080%2Fcallback&scope=twenty%3Aread+twenty%3Awrite&code_challenge="
          ++ challenge ++ lit "&code_challenge_method=S256&state=" ++ state).
Proof.
  intros Hc Hs. unfold Urllib.urlencode, auth_params.
  rewrite (@quote_pairs_cons _ _ (lit "response_type") (lit "code"))
    by (vm_compute; reflexivity).
  rewrite (@quote_pairs_cons _ _ (lit "client_id") (lit "YOUR_CLIENT_ID"))
    by (vm_compute; reflexivity).
  rewrite (@quote_pairs_cons _ _ (lit "redirect_uri")
             (lit "http%3A%2F%2Flocalhost%3A8080%2Fcallback"))
    by (vm_compute; reflexivity).
  rewrite (@quote_pairs_cons _ _ (lit "scope") (lit "twenty%3Aread+twenty%3Awrite"))
    by (vm_compute; reflexivity).
  rewrite (@quote_pairs_cons _ _ (lit "code_challenge") challenge)
    by (first [exact Hc | vm_compute; reflexivity]).
  rewrite (@quote_pairs_cons _ _ (lit "code_challenge_method") (lit "S256"))
    by (vm_compute; reflexivity).
  rewrite (@quote_pairs_cons _ _ (lit "state") state)
    by (first [exact Hs | vm_compute; reflexivity]).
  vm_compute. reflexivity.
Qed.


Lemma simulate_callback_run (w : World) :
  let token := lit "mock_access_token_" ++ hex (map (entropy w) (seq (drawn w) 16)) in
  simulate_callback w =
  (Returned token,
   {| client := {| access_token := Some token;
                   code_verifier := code_verifier (client w);
                   state := state (client w);
                   session := session (client w) |};
      entropy := entropy w; drawn := drawn w + 16;
      stdout := ((stdout w ++ [lit "🔄 Simulating OAuth callback..."])
                 ++ [lit "✅ Authorization completed (simulated)"])
                ++ [lit "   Access Token: " ++ prefix 20 token ++ lit "..."];
      requests := requests w; network := network w |}).
Proof. reflexivity. Qed.



(** The URL printed for the octets of RFC 7636 and a state of zeros. *)
Example start_auth_flow_rfc7636 :
  nth 1 (stdout (snd (start_auth_flow Sample.no_repr Sample.server_metadata
                        Sample.flow_start))) []
  = lit "   Authorization URL: http://localhost:3000/authorize?response_type=code&client_id=YOUR_CLIENT_ID&redirect_uri=http%3A%2F%2Flocalhost%3A8080%2Fcallback&scope=twenty%3Aread+twenty%3Awrite&code_challenge=E9Melhoa2OwvFrEMTJguCHaoeK1t8URWbuGJSstw-cM&code_challenge_method=S256&state=00000000000000000000000000000000".
Proof. vm_compute. reflexivity. Qed.


(** * Further properties *)

(** ** What a computation leaves untouched *)

Lemma preserves_bind (A B X : Type) (part : World -> X) (m : M A) (k : A -> M B) :
  preserves part m -> (forall a, preserves part (k a)) -> preserves part (bind m k).
Proof.
  intros Hm Hk w. unfold bind.
  specialize (Hm w). destruct (m w) as [[a|e] w']; cbn [snd] in *.
  - now rewrite Hk.
  - exact Hm.
Qed.

Lemma preserves_expect (A X : Type) (part : World -> X) (e : exn) (o : option A) :
  preserves part (expect e o).
Proof. destruct o; intros w; reflexivity. Qed.

Lemma preserves_try_except (A X : Type) (part : World -> X) (m : M A)
      (handler : exn -> M A) :
  preserves part m -> (forall e, preserves part (handler e)) ->
  preserves part (try_except m handler).
Proof.
  intros Hm Hh w. unfold try_except.
  specialize (Hm w). destruct (m w) as [[a|e] w']; cbn [snd] in *.
  - exact Hm.
  - now rewrite Hh.
Qed.

Lemma send_client (s : option ClientSession) (rq : Request) :
  preserves client (send s rq).
Proof.
  intros w. unfold send. destruct s as [s|]; [|reflexivity].
  destruct (closed s); [reflexivity|]. cbv zeta.
  destruct (network w (requests w ++ [rq])); reflexivity.
Qed.

Lemma send_drawn (s : option ClientSession) (rq : Request) :
  preserves drawn (send s rq).
Proof.
  intros w. unfold send. destruct s as [s|]; [|reflexivity].
  destruct (closed s); [reflexivity|]. cbv zeta.
  destruct (network w (requests w ++ [rq])); reflexivity.
Qed.

Lemma send_network (s : option ClientSession) (rq : Request) :
  preserves network (send s rq).
Proof.
  intros w. unfold send. destruct s as [s|]; [|reflexivity].
  destruct (closed s); [reflexivity|]. cbv zeta.
  destruct (network w (requests w ++ [rq])); reflexivity.
Qed.

Lemma send_entropy (s : option ClientSession) (rq : Request) :
  preserves entropy (send s rq).
Proof.
  intros w. unfold send. destruct s as [s|]; [|reflexivity].
  destruct (closed s); [reflexivity|]. cbv zeta.
  destruct (network w (requests w ++ [rq])); reflexivity.
Qed.

Lemma send_session (s : option ClientSession) (rq : Request) :
  preserves (fun w => session (client w)) (send s rq).
Proof. intros w. cbv beta. now rewrite send_client. Qed.

(** Splits a computation into its steps and settles each of them. *)
Ltac frame :=
  repeat first
    [ apply preserves_bind; [|intros ?]
    | apply preserves_expect
    | apply preserves_try_except; [|intros ?]
    | apply send_client
    | apply send_drawn
    | apply send_network
    | apply send_entropy
    | apply send_session
    | match goal with
      | |- preserves _ (if ?b then _ else _) => destruct b
      | |- preserves _ (match ?x with _ => _ end) => destruct x
      | |- preserves _ (subscript ?v _) => unfold subscript
      | |- preserves _ (get_default ?v _ _) => unfold get_default
      | |- preserves _ (get_or_none ?v _) => unfold get_or_none
      | |- preserves _ (join_value _ ?v) => unfold join_value
      | |- preserves _ (mcp_result _) => unfold mcp_result
      end
    | solve [intros ?; reflexivity] ].

Lemma discover_endpoints_frame (url : str) (repr : json -> str) :
  preserves client (discover_endpoints url repr).
Proof.
  unfold discover_endpoints. frame.
Qed.

Lemma make_mcp_request_frame (url : str) :
  preserves client (make_mcp_request url) /\ preserves drawn (make_mcp_request url).
Proof.
  split; unfold make_mcp_request; frame.
Qed.

Lemma bind_read (A B : Type) (f : OAuthClient -> A) (k : A -> M B) (w : World) :
  (x <- read_client f ;; k x) w = k (f (client w)) w.
Proof. reflexivity. Qed.

Lemma bind_raised_world (A B : Type) (m : M A) (k : A -> M B) (w : World) (e : exn) :
  fst (m w) = Raised e -> bind m k w = (Raised e, snd (m w)).
Proof.
  unfold bind. destruct (m w) as [[a|e'] w']; cbn [fst snd]; intros H;
    [discriminate|].
  injection H as ->. reflexivity.
Qed.

Lemma bind_returned (A B : Type) (m : M A) (k : A -> M B) (w : World) (a : A) :
  fst (m w) = Returned a -> bind m k w = k a (snd (m w)).
Proof.
  unfold bind. destruct (m w) as [[a'|e] w']; cbn [fst snd]; intros H;
    [|discriminate].
  injection H as ->. reflexivity.
Qed.

(** X1. None of the five HTTP operations writes a field of the client or
    draws from the random source, whatever the server answers: a failed
    call, a 401 among them, leaves the access token in place. *)
Theorem http_operations_frame (url : str) (repr : json -> str)
        (api_key base_url : str) :
  (preserves client (discover_endpoints url repr)
   /\ preserves drawn (discover_endpoints url repr)) /\
  (preserves client (get_auth_server_metadata url repr)
   /\ preserves drawn (get_auth_server_metadata url repr)) /\
  (preserves client (store_api_key url api_key base_url)
   /\ preserves drawn (store_api_key url api_key base_url)) /\
  (preserves client (get_api_key_metadata url repr)
   /\ preserves drawn (get_api_key_metadata url repr)) /\
  (preserves client (make_mcp_request url)
   /\ preserves drawn (make_mcp_request url)).
Proof.
  unfold discover_endpoints, get_auth_server_metadata, store_api_key,
    get_api_key_metadata, make_mcp_request.
  repeat split; frame.
Qed.

(** ** One request for each call *)

(** A request followed by steps that send nothing is one request, whatever
    the network makes of it. *)
Lemma sent_one (A : Type) (s : ClientSession) (rq : Request)
      (k : ClientResponse -> M A) (w : World) :
  closed s = false ->
  (forall r, preserves requests (k r)) ->
  requests (snd ((response <- send (Some s) rq ;; k response) w))
  = requests w ++ [rq].
Proof.
  intros Hc Hk. unfold bind, send. rewrite Hc. cbv zeta.
  destruct (network w (requests w ++ [rq])) as [|r]; [reflexivity|].
  now rewrite Hk.
Qed.

(** X2. With an open session, each of the five HTTP operations sends
    exactly one request, whatever the reply is and however the call ends:
    nothing is sent again. The request has the method, the URL, the
    headers and the body given here; the Authorization header is
    "Bearer " followed by the access token, or by "None" when there is no
    token. *)
Theorem one_request_each (url : str) (repr : json -> str)
        (api_key base_url : str) (w : World) (s : ClientSession) :
  session (client w) = Some s -> closed s = false ->
  requests (snd (discover_endpoints url repr w))
  = requests w ++ [{| req_method := GET;
                      req_url := url ++ lit "/.well-known/oauth-protected-resource";
                      req_headers := []; req_json := None |}] /\
  requests (snd (get_auth_server_metadata url repr w))
  = requests w ++ [{| req_method := GET;
                      req_url := url ++ lit "/.well-known/oauth-authorization-server";
                      req_headers := []; req_json := None |}] /\
  requests (snd (store_api_key url api_key base_url w))
  = requests w ++ [{| req_method := POST;
                      req_url := url ++ lit "/api/keys";
                      req_headers :=
                        [(lit "Authorization", bearer (access_token (client w)));
                         (lit "Content-Type", lit "application/json")];
                      req_json := Some (JObj [(lit "apiKey", JStr api_key);
                                              (lit "baseUrl", JStr base_url)]) |}] /\
  requests (snd (get_api_key_metadata url repr w))
  = requests w ++ [{| req_method := GET;
                      req_url := url ++ lit "/api/keys";
                      req_headers :=
                        [(lit "Authorization", bearer (access_token (client w)))];
                      req_json := None |}] /\
  requests (snd (make_mcp_request url w))
  = requests w ++ [{| req_method := POST;
                      req_url := url ++ lit "/mcp";
                      req_headers :=
                        [(lit "Authorization", bearer (access_token (client w)));
                         (lit "Content-Type", lit "application/json")];
                      req_json := Some (JObj [(lit "jsonrpc", JStr (lit "2.0"));
                                              (lit "method", JStr (lit "initialize"));
                                              (lit "params", JObj []);
                                              (lit "id", JInt 1)]) |}].
Proof.
  intros Hs Hc.
  unfold discover_endpoints, get_auth_server_metadata, store_api_key,
    get_api_key_metadata, make_mcp_request.
  repeat split;
    rewrite bind_print, bind_read; cbv zeta; rewrite ?bind_read;
    cbn [client snd print session access_token]; rewrite Hs;
    (rewrite sent_one; [reflexivity|exact Hc|intros r; frame]).
Qed.

Lemma one_request_each_witness :
  requests (snd (discover_endpoints Sample.server_url Sample.no_repr Sample.failing))
  = [{| req_method := GET;
        req_url := Sample.server_url ++ lit "/.well-known/oauth-protected-resource";
        req_headers := []; req_json := None |}] /\
  req_headers (last (requests (snd (get_api_key_metadata Sample.server_url
                                      Sample.no_repr Sample.unauthorized)))
                    {| req_method := GET; req_url := []; req_headers := [];
                       req_json := None |})
  = [(lit "Authorization", lit "Bearer None")].
Proof.
  pose proof (@one_request_each Sample.server_url Sample.no_repr [] []
                Sample.failing {| closed := false |} eq_refl eq_refl)
    as (H1 & _).
  pose proof (@one_request_each Sample.server_url Sample.no_repr [] []
                Sample.unauthorized {| closed := false |} eq_refl eq_refl)
    as (_ & _ & _ & H4 & _).
  split.
  - exact H1.
  - rewrite H4. reflexivity.
Defined.

(** ** Calls without an open session *)

Lemma send_unusable (A : Type) (o : option ClientSession) (rq : Request)
      (k : ClientResponse -> M A) (w : World) :
  (o = None \/ exists s, o = Some s /\ closed s = true) ->
  (response <- send o rq ;; k response) w
  = (Raised (match o with None => AttributeError | Some _ => RuntimeError end), w).
Proof.
  intros [-> | (s & -> & Hc)]; unfold bind, send; [reflexivity|].
  now rewrite Hc.
Qed.

(** How each operation ends when the session cannot be used. *)
Lemma unusable_session (url : str) (repr : json -> str)
      (api_key base_url : str) (w : World) :
  (session (client w) = None
   \/ exists s, session (client w) = Some s /\ closed s = true) ->
  let e := match session (client w) with
           | None => AttributeError
           | Some _ => RuntimeError
           end in
  (fst (discover_endpoints url repr w) = Raised e
   /\ requests (snd (discover_endpoints url repr w)) = requests w) /\
  (fst (get_auth_server_metadata url repr w) = Raised e
   /\ requests (snd (get_auth_server_metadata url repr w)) = requests w) /\
  (fst (store_api_key url api_key base_url w) = Raised e
   /\ requests (snd (store_api_key url api_key base_url w)) = requests w) /\
  (fst (get_api_key_metadata url repr w) = Raised e
   /\ requests (snd (get_api_key_metadata url repr w)) = requests w) /\
  (fst (make_mcp_request url w) = Raised e
   /\ requests (snd (make_mcp_request url w)) = requests w).
Proof.
  intros H e.
  unfold discover_endpoints, get_auth_server_metadata, store_api_key,
    get_api_key_metadata, make_mcp_request.
  repeat split;
    rewrite bind_print, bind_read; cbv zeta; rewrite ?bind_read;
    cbn [client snd print session access_token];
    (rewrite send_unusable; [reflexivity|exact H]).
Qed.

(** X3. On a client that was never entered (no session) every HTTP
    operation raises AttributeError, and on one whose session is closed
    RuntimeError; in both cases no request is sent. *)
Theorem no_open_session_sends_nothing (url : str) (repr : json -> str)
        (api_key base_url : str) (w : World) (e : exn) :
  (session (client w) = None /\ e = AttributeError
   \/ exists s, session (client w) = Some s /\ closed s = true
                /\ e = RuntimeError) ->
  (fst (discover_endpoints url repr w) = Raised e
   /\ requests (snd (discover_endpoints url repr w)) = requests w) /\
  (fst (get_auth_server_metadata url repr w) = Raised e
   /\ requests (snd (get_auth_server_metadata url repr w)) = requests w) /\
  (fst (store_api_key url api_key base_url w) = Raised e
   /\ requests (snd (store_api_key url api_key base_url w)) = requests w) /\
  (fst (get_api_key_metadata url repr w) = Raised e
   /\ requests (snd (get_api_key_metadata url repr w)) = requests w) /\
  (fst (make_mcp_request url w) = Raised e
   /\ requests (snd (make_mcp_request url w)) = requests w).
Proof.
  intros H.
  assert (Hu : session (client w) = None
               \/ exists s, session (client w) = Some s /\ closed s = true).
  { destruct H as [[H _] | (s & H & Hc & _)]; [now left|right; now exists s]. }
  pose proof (@unusable_session url repr api_key base_url w Hu) as Hall.
  cbv zeta in Hall.
  destruct H as [[Hn ->] | (s & Hs & _ & ->)].
  - now rewrite Hn in Hall.
  - now rewrite Hs in Hall.
Qed.

Lemma no_open_session_sends_nothing_witness :
  fst (make_mcp_request Sample.server_url Sample.awaiting) = Raised AttributeError /\
  fst (store_api_key Sample.server_url [] []
         (Sample.world Demo.left [] ConnectionFailed)) = Raised RuntimeError.
Proof.
  split.
  - apply (@no_open_session_sends_nothing Sample.server_url Sample.no_repr [] []
             Sample.awaiting AttributeError).
    left. split; reflexivity.
  - apply (@no_open_session_sends_nothing Sample.server_url Sample.no_repr [] []
             (Sample.world Demo.left [] ConnectionFailed) RuntimeError).
    right. exists {| closed := true |}. repeat split.
Defined.

Lemma aexit_run (w : World) :
  fst (aexit w) = Returned tt /\
  requests (snd (aexit w)) = requests w /\
  (session (client (snd (aexit w))) = None
   \/ exists s, session (client (snd (aexit w))) = Some s /\ closed s = true).
Proof.
  unfold aexit. rewrite bind_read.
  destruct (session (client w)) as [s|] eqn:E.
  - repeat split. right. exists {| closed := true |}. split; reflexivity.
  - repeat split. left. exact E.
Qed.

(** X4. [__aexit__] never raises, and once it has run no HTTP operation
    reaches the network any more: each raises and sends nothing, whatever
    the client was before. *)
Theorem after_aexit (url : str) (repr : json -> str)
        (api_key base_url : str) (w : World) :
  fst (aexit w) = Returned tt /\
  let w' := snd (aexit w) in
  ((exists e, fst (discover_endpoints url repr w') = Raised e)
   /\ requests (snd (discover_endpoints url repr w')) = requests w) /\
  ((exists e, fst (get_auth_server_metadata url repr w') = Raised e)
   /\ requests (snd (get_auth_server_metadata url repr w')) = requests w) /\
  ((exists e, fst (store_api_key url api_key base_url w') = Raised e)
   /\ requests (snd (store_api_key url api_key base_url w')) = requests w) /\
  ((exists e, fst (get_api_key_metadata url repr w') = Raised e)
   /\ requests (snd (get_api_key_metadata url repr w')) = requests w) /\
  ((exists e, fst (make_mcp_request url w') = Raised e)
   /\ requests (snd (make_mcp_request url w')) = requests w).
Proof.
  destruct (aexit_run w) as (Hret & Hreq & Hs).
  split; [exact Hret|]. intros w'. subst w'.
  pose proof (@unusable_session url repr api_key base_url (snd (aexit w)) Hs)
    as Hall.
  cbv zeta in Hall. rewrite Hreq in Hall.
  destruct Hall as ((A1 & A2) & (B1 & B2) & (C1 & C2) & (D1 & D2) & (E1 & E2)).
  repeat split; try assumption; eexists; eassumption.
Qed.

(** ** A network that does not answer *)

Lemma send_failed (A : Type) (s : ClientSession) (rq : Request)
      (k : ClientResponse -> M A) (w : World) :
  closed s = false ->
  network w (requests w ++ [rq]) = ConnectionFailed ->
  fst ((response <- send (Some s) rq ;; k response) w) = Raised ClientError.
Proof. intros Hc Hn. unfold bind, send. rewrite Hc. cbv zeta. now rewrite Hn. Qed.

(** The last line on standard output. *)
Lemma last_printed (A : Type) (line : str) (k : M A) (w : World) :
  preserves stdout k ->
  last (stdout (snd ((print line ;; k) w))) [] = line.
Proof.
  intros Hk. rewrite bind_print, Hk. cbn [print snd stdout].
  apply last_last.
Qed.

(** X5. When the connection fails, each of the five HTTP operations raises
    the client error of the library, and [run_complete_flow] prints
    "Demo failed: " with its message as its last line and raises the same
    error. *)
Theorem connection_failure_raises (url : str) (repr : json -> str)
        (message : exn -> str) (api_key base_url : str)
        (w : World) (s : ClientSession) :
  session (client w) = Some s -> closed s = false ->
  (forall rq, network w (requests w ++ [rq]) = ConnectionFailed) ->
  fst (discover_endpoints url repr w) = Raised ClientError /\
  fst (get_auth_server_metadata url repr w) = Raised ClientError /\
  fst (store_api_key url api_key base_url w) = Raised ClientError /\
  fst (get_api_key_metadata url repr w) = Raised ClientError /\
  fst (make_mcp_request url w) = Raised ClientError /\
  fst (run_complete_flow url repr message w) = Raised ClientError /\
  last (stdout (snd (run_complete_flow url repr message w))) []
  = lit "❌ Demo failed: " ++ message ClientError.
Proof.
  intros Hs Hc Hn.
  assert (Hd : forall w', session (client w') = Some s ->
                          network w' = network w -> requests w' = requests w ->
                          fst (discover_endpoints url repr w') = Raised ClientError).
  { intros w' Hs' Hn' Hr'. unfold discover_endpoints.
    rewrite bind_print, bind_read. cbn [client snd print session]. rewrite Hs'.
    apply send_failed; [exact Hc|]. cbn [network requests snd print].
    rewrite Hn', Hr'. apply Hn. }
  split; [now apply Hd|].
  split; [|split; [|split; [|split]]].
  1-4: unfold get_auth_server_metadata, store_api_key, get_api_key_metadata,
         make_mcp_request;
       rewrite bind_print, bind_read; cbv zeta; rewrite ?bind_read;
       cbn [client snd print session access_token]; rewrite Hs;
       (apply send_failed; [exact Hc|apply Hn]).
  assert (Hsteps : fst (complete_flow_steps url repr w) = Raised ClientError).
  { unfold complete_flow_steps. rewrite !bind_print.
    apply bind_raised, Hd; [exact Hs|reflexivity|reflexivity]. }
  unfold run_complete_flow, try_except.
  destruct (complete_flow_steps url repr w) as [[a|e] w1]; cbn [fst] in Hsteps;
    [discriminate|].
  injection Hsteps as ->. split; [reflexivity|].
  apply last_printed. intros w2. reflexivity.
Qed.

Lemma connection_failure_raises_witness :
  fst (run_complete_flow Sample.server_url Sample.no_repr Sample.no_message
         Demo.offline) = Raised ClientError /\
  last (stdout (snd (run_complete_flow Sample.server_url Sample.no_repr
                       Sample.no_message Demo.offline))) []
  = lit "❌ Demo failed: " ++ Sample.no_message ClientError.
Proof.
  apply (@connection_failure_raises Sample.server_url Sample.no_repr
           Sample.no_message [] [] Demo.offline {| closed := false |});
    reflexivity.
Defined.

(** ** How [run_complete_flow] ends *)

Lemma bind_returned_inv (A B : Type) (m : M A) (k : A -> M B) (w w' : World) (b : B) :
  bind m k w = (Returned b, w') ->
  exists a w1, m w = (Returned a, w1) /\ k a w1 = (Returned b, w').
Proof.
  unfold bind. destruct (m w) as [[a|e] w1]; intros H; [|discriminate].
  now exists a, w1.
Qed.

(** X6. [run_complete_flow] ends as its steps do, and its last printed line
    tells which way: "Demo failed: " with the text of the exception when
    it raises, the last line of the summary when it returns. *)
Theorem run_complete_flow_reports (url : str) (repr : json -> str)
        (message : exn -> str) (w : World) :
  (forall e, fst (run_complete_flow url repr message w) = Raised e ->
     fst (complete_flow_steps url repr w) = Raised e /\
     last (stdout (snd (run_complete_flow url repr message w))) []
     = lit "❌ Demo failed: " ++ str_of_exn message e) /\
  (fst (run_complete_flow url repr message w) = Returned tt ->
     fst (complete_flow_steps url repr w) = Returned tt /\
     last (stdout (snd (run_complete_flow url repr message w))) []
     = lit "   4. Use real Bearer tokens").
Proof.
  unfold run_complete_flow, try_except.
  destruct (complete_flow_steps url repr w) as [[[]|e] w1] eqn:E.
  - split; [intros e H; discriminate|]. intros _. split; [reflexivity|].
    cbn [snd]. unfold complete_flow_steps in E. cbv zeta in E.
    repeat match type of E with
           | bind _ _ _ = (Returned _, _) =>
             apply bind_returned_inv in E; destruct E as (? & ? & _ & E)
           end.
    unfold print in E. injection E as <-. cbn [stdout]. apply last_last.
  - split; [|intros H; discriminate].
    intros e' H. cbn [fst] in H.
    rewrite bind_print in H. cbn [fst] in H. injection H as <-.
    split; [reflexivity|].
    apply last_printed. intros w2. reflexivity.
Qed.

Lemma run_complete_flow_reports_witness :
  last (stdout (snd (run_complete_flow Sample.server_url Sample.no_repr
                       Sample.no_message Demo.offline))) []
  = lit "❌ Demo failed: " ++ str_of_exn Sample.no_message ClientError /\
  last (stdout (snd (run_complete_flow Sample.server_url Sample.no_repr
                       Sample.no_message Demo.mock_token_demo))) []
  = lit "   4. Use real Bearer tokens".
Proof.
  split.
  - apply (proj1 (run_complete_flow_reports Sample.server_url Sample.no_repr
                    Sample.no_message Demo.offline) ClientError).
    vm_compute. reflexivity.
  - apply (proj2 (run_complete_flow_reports Sample.server_url Sample.no_repr
                    Sample.no_message Demo.mock_token_demo)).
    vm_compute. reflexivity.
Defined.

(** ** The world after each operation *)

(** Settles what an operation that prints, reads the client, sends one
    request and goes on without sending leaves of the world. *)
Ltac one_step Hs Hc :=
  repeat split;
  [ rewrite bind_print, bind_read; cbv zeta; rewrite ?bind_read;
    cbn [client snd print session access_token]; rewrite Hs;
    (rewrite sent_one; [reflexivity|exact Hc|intros r; frame])
  | match goal with |- ?part (snd (?m ?w)) = _ =>
      assert (Hp : preserves part m) by frame; apply Hp end .. ].

Lemma discover_endpoints_step (url : str) (repr : json -> str)
      (w : World) (s : ClientSession) :
  session (client w) = Some s -> closed s = false ->
  requests (snd (discover_endpoints url repr w))
  = requests w ++ [{| req_method := GET;
                      req_url := url ++ lit "/.well-known/oauth-protected-resource";
                      req_headers := []; req_json := None |}] /\
  client (snd (discover_endpoints url repr w)) = client w /\
  drawn (snd (discover_endpoints url repr w)) = drawn w /\
  network (snd (discover_endpoints url repr w)) = network w /\
  entropy (snd (discover_endpoints url repr w)) = entropy w.
Proof. intros Hs Hc. unfold discover_endpoints. one_step Hs Hc. Qed.





(** X7. When the discovery request is answered with a status of 400 or
    more, [run_complete_flow] stops there: that one request is all it has
    sent, no random byte is drawn and no field of the client is written,
    so that no PKCE pair, state or token exists afterwards. *)
Theorem discovery_failure_stops_flow (url : str) (repr : json -> str)
        (message : exn -> str) (w : World) (r : ClientResponse) :
  answers w r -> (400 <= status r)%Z ->
  requests (snd (run_complete_flow url repr message w))
  = requests w ++ [{| req_method := GET;
                      req_url := url ++ lit "/.well-known/oauth-protected-resource";
                      req_headers := []; req_json := None |}] /\
  client (snd (run_complete_flow url repr message w)) = client w /\
  drawn (snd (run_complete_flow url repr message w)) = drawn w.
Proof.
  intros Ha Hst.
  set (w3 := snd (print (lit "")
               (snd (print (lit "═══════════════════════════════════════════════════════")
                  (snd (print (lit "🎯 OAuth 2.1 Flow Demo for Twenty MCP Server (Python)") w)))))).
  assert (Ha3 : answers w3 r) by (subst w3; now repeat apply answers_print).
  pose proof (discover_endpoints_fails url repr Ha3 Hst) as Hf.
  destruct Ha as (s & Hs & Hc & _).
  destruct (@discover_endpoints_step url repr w3 s Hs Hc) as (Hr & Hcl & Hd & _).
  unfold run_complete_flow, try_except, complete_flow_steps.
  rewrite !bind_print. fold w3.
  erewrite bind_raised_world by exact Hf.
  rewrite bind_print. cbn [snd print requests client drawn].
  now rewrite Hr, Hcl, Hd.
Qed.

Lemma discovery_failure_stops_flow_witness :
  requests (snd (run_complete_flow Sample.server_url Sample.no_repr
                   Sample.no_message Sample.failing))
  = requests Sample.failing
    ++ [{| req_method := GET;
           req_url := Sample.server_url ++ lit "/.well-known/oauth-protected-resource";
           req_headers := []; req_json := None |}] /\
  client (snd (run_complete_flow Sample.server_url Sample.no_repr
                 Sample.no_message Sample.failing)) = client Sample.failing /\
  drawn (snd (run_complete_flow Sample.server_url Sample.no_repr
                Sample.no_message Sample.failing)) = drawn Sample.failing.
Proof.
  apply (@discovery_failure_stops_flow Sample.server_url Sample.no_repr
           Sample.no_message Sample.failing
           (Sample.plain 500 "Internal Server Error")).
  - exists {| closed := false |}. repeat split; reflexivity.
  - vm_compute. discriminate.
Defined.

(** ** What the results of the operations tell *)

(** The outcome of [store_api_key] as a function of the response. *)
Lemma store_api_key_outcome (url api_key base_url : str)
      (w : World) (r : ClientResponse) :
  answers w r ->
  fst (store_api_key url api_key base_url w)
  = if (status r =? 401)%Z then Returned false
    else if (status r <? 400)%Z
         then match json_body r with
              | Some _ => Returned true
              | None => Raised JSONError
              end
         else Raised (Exception (lit "Failed to store API key: "
                                 ++ str_of_int (status r))).
Proof.
  intros (s & Hs & Hc & Hn). unfold store_api_key.
  unfold bind at 1 2 3 4. receive Hs Hc Hn. unfold ok.
  destruct (status r =? 401)%Z; [reflexivity|].
  destruct (status r <? 400)%Z; [|reflexivity].
  unfold bind at 1. destruct (json_body r); reflexivity.
Qed.

(** X8. With an open session and a response received, [store_api_key]
    returns [True] exactly when the status is below 400 and the body is
    JSON, and [False] exactly when the status is 401. *)
Theorem store_api_key_result (url api_key base_url : str)
        (w : World) (r : ClientResponse) :
  answers w r ->
  (fst (store_api_key url api_key base_url w) = Returned true
   <-> (status r < 400)%Z /\ exists body, json_body r = Some body) /\
  (fst (store_api_key url api_key base_url w) = Returned false
   <-> status r = 401%Z).
Proof.
  intros Ha. rewrite (store_api_key_outcome url api_key base_url Ha).
  destruct (Z.eqb_spec (status r) 401) as [E401|N401].
  - split; split; intros H; try discriminate; try assumption.
    + destruct H as [H _]. lia.
    + reflexivity.
  - destruct (Z.ltb_spec (status r) 400) as [Hlt|Hge].
    + destruct (json_body r) as [body|].
      * split; split; intros H; try discriminate; try contradiction;
          try reflexivity.
        split; [exact Hlt|now exists body].
      * split; split; intros H; try discriminate; try contradiction.
        destruct H as (_ & body & H). discriminate.
    + split; split; intros H; try discriminate; try contradiction.
      destruct H as [H _]. lia.
Qed.

Lemma store_api_key_result_witness :
  fst (store_api_key Sample.server_url [] [] Sample.not_modified) = Returned true /\
  status (Sample.plain 401 "Unauthorized") = 401%Z.
Proof.
  assert (Ha : answers Sample.not_modified
                 (Sample.with_json 304 Sample.resource_metadata))
    by (exists {| closed := false |}; repeat split; reflexivity).
  assert (Hb : answers Sample.unauthorized (Sample.plain 401 "Unauthorized"))
    by (exists {| closed := false |}; repeat split; reflexivity).
  split.
  - apply (proj1 (@store_api_key_result Sample.server_url [] []
                    Sample.not_modified _ Ha)).
    split; [reflexivity|]. now exists Sample.resource_metadata.
  - apply (proj2 (@store_api_key_result Sample.server_url [] []
                    Sample.unauthorized _ Hb)).
    vm_compute. reflexivity.
Defined.

Lemma is_no_api_key_spec (v : option json) :
  is_no_api_key v = true <-> v = Some (JStr (lit "No API key configured")).
Proof.
  unfold is_no_api_key. split.
  - destruct v as [[]|]; try discriminate.
    intros H. apply str_eqb_eq in H. now subst.
  - intros ->. apply str_eqb_refl.
Qed.

Lemma mcp_result_not_none (r : ClientResponse) (w : World) :
  fst (mcp_result r w) <> Returned None.
Proof.
  unfold mcp_result. rewrite bind_print. unfold bind.
  destruct (text_body r); cbn; discriminate.
Qed.

(** The outcome of [make_mcp_request] as a function of the response. *)
Lemma make_mcp_request_outcome (url : str) (w : World) (r : ClientResponse) :
  answers w r ->
  exists w1,
  fst (make_mcp_request url w)
  = if (status r =? 401)%Z then Returned None
    else if (status r =? 400)%Z
         then match json_body r with
              | None => Raised JSONError
              | Some (JObj fields) =>
                if is_no_api_key (lookup (lit "error") fields)
                then Returned None
                else fst (mcp_result r w1)
              | Some _ => Raised AttributeError
              end
         else fst (mcp_result r w1).
Proof.
  intros (s & Hs & Hc & Hn). unfold make_mcp_request.
  unfold bind at 1 2 3 4. receive Hs Hc Hn.
  eexists.
  destruct (status r =? 401)%Z; [reflexivity|].
  destruct (status r =? 400)%Z; [|reflexivity].
  unfold bind at 1. destruct (json_body r) as [body|]; [|reflexivity].
  cbn [expect ret]. unfold bind at 1.
  destruct body; try reflexivity. cbn [get_or_none ret].
  destruct (is_no_api_key (lookup (lit "error") fields)); reflexivity.
Qed.

(** X9. With an open session and a response received, [make_mcp_request]
    returns [None] exactly when the status is 401, or the status is 400 and
    the body is a JSON object whose error is "No API key configured". A 400
    whose body is not JSON raises, and so does one whose JSON is no
    object. *)
Theorem make_mcp_request_result (url : str) (w : World) (r : ClientResponse) :
  answers w r ->
  (fst (make_mcp_request url w) = Returned None
   <-> status r = 401%Z
       \/ (status r = 400%Z /\
           exists fields,
             json_body r = Some (JObj fields) /\
             lookup (lit "error") fields
             = Some (JStr (lit "No API key configured")))) /\
  (status r = 400%Z -> json_body r = None ->
   fst (make_mcp_request url w) = Raised JSONError) /\
  (status r = 400%Z ->
   forall body, json_body r = Some body ->
                (forall fields, body <> JObj fields) ->
                fst (make_mcp_request url w) = Raised AttributeError).
Proof.
  intros Ha.
  destruct (make_mcp_request_outcome url Ha) as [w1 ->].
  destruct (Z.eqb_spec (status r) 401) as [E401|N401].
  { split; [|split].
    - split; [now left|reflexivity].
    - intros H. lia.
    - intros H. lia. }
  destruct (Z.eqb_spec (status r) 400) as [E400|N400].
  2:{ split; [|split]; [|intros H; contradiction..].
      split; intros H.
      - now apply mcp_result_not_none in H.
      - destruct H as [H|[H _]]; contradiction. }
  split; [|split].
  - destruct (json_body r) as [body|].
    2:{ split; intros H; [discriminate|].
        destruct H as [H|(_ & fields & H & _)]; [contradiction|discriminate]. }
    destruct body as [| | | | | |fields];
      try (split; intros H; [discriminate|];
           destruct H as [H|(_ & fields & H & _)];
           [contradiction|discriminate]).
    destruct (is_no_api_key (lookup (lit "error") fields)) eqn:Ekey.
    + split; [|reflexivity]. intros _. right.
      split; [exact E400|]. exists fields. split; [reflexivity|].
      now apply is_no_api_key_spec.
    + split; intros H.
      * now apply mcp_result_not_none in H.
      * destruct H as [H|(_ & fields' & H & Hl)]; [contradiction|].
        injection H as <-. apply is_no_api_key_spec in Hl. congruence.
  - intros _ Hb. now rewrite Hb.
  - intros _ body Hb Hno. rewrite Hb.
    destruct body; try reflexivity. now elim (Hno fields).
Qed.

Lemma replying_answers (r : ClientResponse) : answers (Demo.replying r) r.
Proof. exists {| closed := false |}. repeat split; reflexivity. Qed.

Lemma make_mcp_request_result_witness :
  fst (make_mcp_request Sample.server_url (Demo.replying Demo.no_api_key))
  = Returned None /\
  fst (make_mcp_request Sample.server_url
         (Demo.replying (Sample.plain 400 "Bad Request")))
  = Raised JSONError /\
  fst (make_mcp_request Sample.server_url
         (Demo.replying (Sample.with_json 400 (JArr []))))
  = Raised AttributeError.
Proof.
  split; [|split].
  - apply (proj1 (@make_mcp_request_result Sample.server_url
                    (Demo.replying Demo.no_api_key) Demo.no_api_key
                    (replying_answers _))).
    right. split; [reflexivity|]. eexists. split; reflexivity.
  - apply (proj1 (proj2 (@make_mcp_request_result Sample.server_url
                    (Demo.replying (Sample.plain 400 "Bad Request"))
                    (Sample.plain 400 "Bad Request")
                    (replying_answers _)))); reflexivity.
  - apply (proj2 (proj2 (@make_mcp_request_result Sample.server_url
                    (Demo.replying (Sample.with_json 400 (JArr [])))
                    (Sample.with_json 400 (JArr []))
                    (replying_answers _))) eq_refl (JArr [])).
    + reflexivity.
    + intros fields. discriminate.
Defined.

Lemma fst_returned_inv (A B : Type) (m : M A) (k : A -> M B) (w : World) (b : B) :
  fst (bind m k w) = Returned b ->
  exists a, fst (m w) = Returned a /\ fst (k a (snd (m w))) = Returned b.
Proof.
  unfold bind. destruct (m w) as [[a|e] w1]; cbn [fst snd]; intros H;
    [|discriminate].
  now exists a.
Qed.

Lemma subscript_returned (v : json) (key : str) (w : World) (x : json) :
  fst (subscript v key w) = Returned x ->
  exists fields, v = JObj fields /\ lookup key fields = Some x.
Proof.
  destruct v; cbn; try discriminate. intros H. exists fields. split; [reflexivity|].
  destruct (lookup key fields); cbn in H; [now injection H as ->|discriminate].
Qed.

Lemma discover_endpoints_returned (url : str) (repr : json -> str)
      (w : World) (r : ClientResponse) (m : json) :
  answers w r ->
  fst (discover_endpoints url repr w) = Returned m ->
  (status r < 400)%Z /\ json_body r = Some m /\
  exists fields, m = JObj fields /\
    contains (lit "resource") fields = true /\
    contains (lit "authorization_servers") fields = true.
Proof.
  intros (s & Hs & Hc & Hn). unfold discover_endpoints.
  unfold bind at 1 2 3. receive Hs Hc Hn. unfold ok.
  destruct (Z.ltb_spec (status r) 400) as [Hlt|Hge]; cbn [negb fst];
    [|discriminate].
  intros H. split; [exact Hlt|].
  apply fst_returned_inv in H. destruct H as (body & Hb & H).
  destruct (json_body r) as [body'|]; [|discriminate].
  injection Hb as ->. rewrite bind_print in H.
  apply fst_returned_inv in H. destruct H as (x1 & H1 & H).
  apply subscript_returned in H1. destruct H1 as (fields & -> & L1).
  rewrite bind_print in H.
  apply fst_returned_inv in H. destruct H as (x2 & H2 & H).
  apply subscript_returned in H2. destruct H2 as (fields' & Ef & L2).
  injection Ef as <-.
  apply fst_returned_inv in H. destruct H as (x3 & _ & H).
  rewrite bind_print in H. injection H as <-.
  split; [reflexivity|]. exists fields. unfold contains. now rewrite L1, L2.
Qed.

Lemma get_auth_server_metadata_returned (url : str) (repr : json -> str)
      (w : World) (r : ClientResponse) (m : json) :
  answers w r ->
  fst (get_auth_server_metadata url repr w) = Returned m ->
  (status r < 400)%Z /\ json_body r = Some m /\
  exists fields, m = JObj fields /\
    contains (lit "issuer") fields = true /\
    contains (lit "authorization_endpoint") fields = true /\
    contains (lit "token_endpoint") fields = true.
Proof.
  intros (s & Hs & Hc & Hn). unfold get_auth_server_metadata.
  unfold bind at 1 2 3. receive Hs Hc Hn. unfold ok.
  destruct (Z.ltb_spec (status r) 400) as [Hlt|Hge]; cbn [negb fst];
    [|discriminate].
  intros H. split; [exact Hlt|].
  apply fst_returned_inv in H. destruct H as (body & Hb & H).
  destruct (json_body r) as [body'|]; [|discriminate].
  injection Hb as ->. rewrite bind_print in H.
  apply fst_returned_inv in H. destruct H as (x1 & H1 & H).
  apply subscript_returned in H1. destruct H1 as (fields & -> & L1).
  rewrite bind_print in H.
  apply fst_returned_inv in H. destruct H as (x2 & H2 & H).
  apply subscript_returned in H2. destruct H2 as (fields2 & Ef & L2).
  injection Ef as <-. rewrite bind_print in H.
  apply fst_returned_inv in H. destruct H as (x3 & H3 & H).
  apply subscript_returned in H3. destruct H3 as (fields3 & Ef & L3).
  injection Ef as <-. rewrite bind_print in H. injection H as <-.
  split; [reflexivity|]. exists fields. unfold contains.
  now rewrite L1, L2, L3.
Qed.

(** X10. What [discover_endpoints] and [get_auth_server_metadata] return
    is the JSON body of a response whose status is below 400, and it is an
    object that has every key the operation prints: resource and
    authorization_servers for the first, issuer, authorization_endpoint and
    token_endpoint for the second. *)
Theorem returned_metadata_has_keys (url : str) (repr : json -> str)
        (w : World) (r : ClientResponse) :
  answers w r ->
  (forall m, fst (discover_endpoints url repr w) = Returned m ->
     (status r < 400)%Z /\ json_body r = Some m /\
     exists fields, m = JObj fields /\
       contains (lit "resource") fields = true /\
       contains (lit "authorization_servers") fields = true) /\
  (forall m, fst (get_auth_server_metadata url repr w) = Returned m ->
     (status r < 400)%Z /\ json_body r = Some m /\
     exists fields, m = JObj fields /\
       contains (lit "issuer") fields = true /\
       contains (lit "authorization_endpoint") fields = true /\
       contains (lit "token_endpoint") fields = true).
Proof.
  intros Ha. split; intros m H.
  - now apply discover_endpoints_returned with (url := url) (repr := repr) (w := w).
  - now apply get_auth_server_metadata_returned
      with (url := url) (repr := repr) (w := w).
Qed.

Lemma returned_metadata_has_keys_witness :
  json_body (Sample.with_json 200 Sample.resource_metadata)
  = Some Sample.resource_metadata /\
  exists fields, Sample.server_metadata = JObj fields /\
    contains (lit "issuer") fields = true /\
    contains (lit "authorization_endpoint") fields = true /\
    contains (lit "token_endpoint") fields = true.
Proof.
  split.
  - apply (proj1 (@returned_metadata_has_keys Sample.server_url Sample.no_repr
                    (Demo.replying (Sample.with_json 200 Sample.resource_metadata))
                    (Sample.with_json 200 Sample.resource_metadata)
                    (replying_answers _)) Sample.resource_metadata).
    vm_compute. reflexivity.
  - apply (proj2 (@returned_metadata_has_keys Sample.server_url Sample.no_repr
                    (Demo.replying (Sample.with_json 200 Sample.server_metadata))
                    (Sample.with_json 200 Sample.server_metadata)
                    (replying_answers _)) Sample.server_metadata).
    vm_compute. reflexivity.
Defined.



(** ** The generators and [start_auth_flow] together *)

Lemma base64url_nopad_length (bs : bytes) :
  List.length (Spec.base64url_nopad bs) = (4 * List.length bs + 2) / 3.
Proof.
  induction bs as [|a|a b|a b c r IH] using list_ind3;
    cbn [Spec.base64url_nopad List.length]; try reflexivity.
  rewrite IH.
  replace (4 * S (S (S (List.length r))) + 2) with (4 * List.length r + 2 + 4 * 3)
    by lia.
  rewrite Nat.div_add by discriminate. lia.
Qed.

(** X12. The code_verifier that [generate_pkce] returns has 43 characters,
    and so has the code_challenge. *)
Theorem generate_pkce_lengths (w : World) :
  exists verifier challenge w',
    generate_pkce w
    = (Returned [(lit "code_verifier", verifier);
                 (lit "code_challenge", challenge);
                 (lit "code_challenge_method", lit "S256")], w') /\
    List.length verifier = 43 /\ List.length challenge = 43.
Proof.
  pose proof (generate_pkce_run w) as Hrun. cbv zeta in Hrun.
  do 3 eexists. split; [exact Hrun|].
  rewrite !base64url_nopad_length, digest_length, length_map, length_seq.
  split; reflexivity.
Qed.

Lemma returned_eq (A : Type) (a b : A) : Returned a = Returned b -> a = b.
Proof. intros H. now injection H. Qed.

(** X13. Two draws of 32 bytes that differ give code verifiers that
    differ: the verifier holds all of its draw. *)
Theorem generate_pkce_verifier_distinct (w1 w2 : World) :
  map (entropy w1) (seq (drawn w1) 32) <> map (entropy w2) (seq (drawn w2) 32) ->
  exists v1 c1 w1' v2 c2 w2',
    generate_pkce w1
    = (Returned [(lit "code_verifier", v1); (lit "code_challenge", c1);
                 (lit "code_challenge_method", lit "S256")], w1') /\
    generate_pkce w2
    = (Returned [(lit "code_verifier", v2); (lit "code_challenge", c2);
                 (lit "code_challenge_method", lit "S256")], w2') /\
    v1 <> v2.
Proof.
  intros Hne.
  pose proof (generate_pkce_run w1) as H1. cbv zeta in H1.
  pose proof (generate_pkce_run w2) as H2. cbv zeta in H2.
  do 6 eexists. split; [exact H1|]. split; [exact H2|].
  intros E. now apply Hne, base64url_nopad_inj.
Qed.

Lemma generate_pkce_verifier_distinct_witness :
  exists v1 c1 w1' v2 c2 w2',
    generate_pkce Sample.flow_start
    = (Returned [(lit "code_verifier", v1); (lit "code_challenge", c1);
                 (lit "code_challenge_method", lit "S256")], w1') /\
    generate_pkce Sample.awaiting
    = (Returned [(lit "code_verifier", v2); (lit "code_challenge", c2);
                 (lit "code_challenge_method", lit "S256")], w2') /\
    v1 <> v2.
Proof.
  apply (@generate_pkce_verifier_distinct Sample.flow_start Sample.awaiting).
  vm_compute. discriminate.
Defined.

Lemma hex_digit_inj (n m : N) :
  (n < 16)%N -> (m < 16)%N -> hex_digit n = hex_digit m -> n = m.
Proof.
  unfold hex_digit. intros Hn Hm.
  destruct (N.ltb_spec n 10), (N.ltb_spec m 10); lia.
Qed.

Lemma hex_inj (a b : bytes) : hex a = hex b -> a = b.
Proof.
  unfold hex. revert b.
  induction a as [|x a IH]; intros [|y b]; cbn [flat_map app]; intros H;
    try discriminate; [reflexivity|].
  injection H as H1 H2 H3.
  pose proof (to_N_lt_256 x). pose proof (to_N_lt_256 y).
  apply hex_digit_inj in H1;
    [|apply N.Div0.div_lt_upper_bound; lia|apply N.Div0.div_lt_upper_bound; lia].
  apply hex_digit_inj in H2; [|apply N.mod_lt; lia|apply N.mod_lt; lia].
  f_equal; [|now apply IH].
  apply to_N_inj.
  rewrite (N.div_mod (Byte.to_N x) 16), (N.div_mod (Byte.to_N y) 16) by lia.
  now rewrite H1, H2.
Qed.

(** X14. Two draws of 16 bytes that differ give state tokens that differ:
    the token holds all of its draw. *)
Theorem generate_state_inj (w1 w2 : World) :
  map (entropy w1) (seq (drawn w1) 16) <> map (entropy w2) (seq (drawn w2) 16) ->
  fst (generate_state w1) <> fst (generate_state w2).
Proof.
  intros Hne. rewrite !generate_state_run. cbn [fst].
  intros E. apply returned_eq, hex_inj in E. contradiction.
Qed.

Lemma generate_state_inj_witness :
  fst (generate_state Sample.flow_start) <> fst (generate_state Sample.awaiting).
Proof.
  apply generate_state_inj. vm_compute. discriminate.
Defined.

(** X15. The token of [simulate_callback] is "mock_access_token_" followed
    by 32 hexadecimal digits; it is what the call returns and stores, and
    the line printed last shows no more of it than its first two digits. *)
Theorem simulate_callback_token (w : World) :
  exists digits w',
    simulate_callback w = (Returned (lit "mock_access_token_" ++ digits), w') /\
    List.length digits = 32 /\
    Forall (fun c => Spec.is_hex_char c = true) digits /\
    access_token (client w') = Some (lit "mock_access_token_" ++ digits) /\
    last (stdout w') []
    = lit "   Access Token: "
      ++ (lit "mock_access_token_" ++ firstn 2 digits) ++ lit "...".
Proof.
  pose proof (simulate_callback_run w) as Hrun. cbv zeta in Hrun.
  do 2 eexists. split; [exact Hrun|].
  split; [now rewrite hex_length, length_map, length_seq|].
  split; [apply hex_chars|]. split; [reflexivity|].
  cbn [stdout]. rewrite last_last. unfold prefix.
  rewrite firstn_app. reflexivity.
Qed.

(** The world in which [start_auth_flow] reaches the metadata: both
    generators have run. *)
Lemma start_auth_flow_generated (A : Type) (w : World)
      (k : list (str * str) -> str -> M A) :
  (pkce_params <- generate_pkce ;; state <- generate_state ;; k pkce_params state) w
  = k [(lit "code_verifier",
        Spec.base64url_nopad (map (entropy w) (seq (drawn w) 32)));
       (lit "code_challenge",
        Spec.base64url_nopad
          (Sha256.digest
             (map byte_of_N
                (Spec.base64url_nopad (map (entropy w) (seq (drawn w) 32))))));
       (lit "code_challenge_method", lit "S256")]
      (hex (map (entropy w) (seq (drawn w + 32) 16)))
      {| client := {| access_token := access_token (client w);
                      code_verifier :=
                        Some (Spec.base64url_nopad
                                (map (entropy w) (seq (drawn w) 32)));
                      state := Some (hex (map (entropy w) (seq (drawn w + 32) 16)));
                      session := session (client w) |};
         entropy := entropy w; drawn := drawn w + 32 + 16;
         stdout := stdout w; requests := requests w; network := network w |}.
Proof.
  unfold bind at 1. rewrite generate_pkce_run.
  unfold bind at 1. rewrite generate_state_run. reflexivity.
Qed.

(** What a call of [start_auth_flow] returns and the world it leaves, when
    the metadata has an authorization_endpoint. *)
Lemma start_auth_flow_run (repr : json -> str) (w : World)
      (fields : list (str * json)) (endpoint : json) :
  lookup (lit "authorization_endpoint") fields = Some endpoint ->
  exists printed,
    start_auth_flow repr (JObj fields) w
    = (Returned (lit "mock_access_token_"
                 ++ hex (map (entropy w) (seq (drawn w + 32 + 16) 16))),
       {| client :=
            {| access_token :=
                 Some (lit "mock_access_token_"
                       ++ hex (map (entropy w) (seq (drawn w + 32 + 16) 16)));
               code_verifier :=
                 Some (Spec.base64url_nopad (map (entropy w) (seq (drawn w) 32)));
               state := Some (hex (map (entropy w) (seq (drawn w + 32) 16)));
               session := session (client w) |};
          entropy := entropy w; drawn := drawn w + 32 + 16 + 16;
          stdout := printed; requests := requests w; network := network w |}).
Proof.
  intros Hep. unfold start_auth_flow. rewrite start_auth_flow_generated.
  match goal with
  | |- context [lookup _ [(_, ?v); (_, ?c); (_, ?m)]] =>
    destruct (pkce_params_lookup v c m) as (_ & -> & ->)
  end.
  unfold bind at 1. cbn [expect ret]. unfold bind at 1. cbn [expect ret].
  unfold subscript. rewrite Hep. unfold bind at 1. cbn [expect ret].
  rewrite urlencode_auth_params.
  - unfold bind at 1. cbn [expect ret].
    rewrite !bind_print, simulate_callback_run. cbv zeta.
    eexists. reflexivity.
  - apply quote_plus_safe.
    eapply Forall_impl; [apply urlsafe_is_always_safe|]. apply base64url_nopad_safe.
  - apply quote_plus_safe.
    eapply Forall_impl; [apply hex_is_always_safe|]. apply hex_chars.
Qed.



(** X17. On metadata that is an object without authorization_endpoint,
    [start_auth_flow] raises KeyError only after both generators have run:
    the verifier and the state of the client are already replaced and 48
    bytes are drawn, while nothing is printed and no access token is
    set. *)
Theorem start_auth_flow_missing_endpoint (repr : json -> str) (w : World)
        (fields : list (str * json)) :
  lookup (lit "authorization_endpoint") fields = None ->
  exists w',
    start_auth_flow repr (JObj fields) w
    = (Raised (KeyError (lit "authorization_endpoint")), w') /\
    code_verifier (client w')
    = Some (Spec.base64url_nopad (map (entropy w) (seq (drawn w) 32))) /\
    state (client w') = Some (hex (map (entropy w) (seq (drawn w + 32) 16))) /\
    access_token (client w') = access_token (client w) /\
    drawn w' = drawn w + 48 /\
    stdout w' = stdout w.
Proof.
  intros Hep. unfold start_auth_flow. rewrite start_auth_flow_generated.
  match goal with
  | |- context [lookup _ [(_, ?v); (_, ?c); (_, ?m)]] =>
    destruct (pkce_params_lookup v c m) as (_ & -> & ->)
  end.
  unfold bind at 1. cbn [expect ret]. unfold bind at 1. cbn [expect ret].
  unfold subscript. rewrite Hep. unfold bind at 1. cbn [expect raise].
  eexists. split; [reflexivity|]. cbn [client code_verifier state access_token
    drawn stdout].
  repeat split. lia.
Qed.

Lemma start_auth_flow_missing_endpoint_witness :
  exists w',
    start_auth_flow Sample.no_repr (JObj []) Sample.flow_start
    = (Raised (KeyError (lit "authorization_endpoint")), w') /\
    code_verifier (client w')
    = Some (Spec.base64url_nopad
              (map (entropy Sample.flow_start) (seq (drawn Sample.flow_start) 32))) /\
    state (client w')
    = Some (hex (map (entropy Sample.flow_start)
                   (seq (drawn Sample.flow_start + 32) 16))) /\
    access_token (client w') = access_token (client Sample.flow_start) /\
    drawn w' = drawn Sample.flow_start + 48 /\
    stdout w' = stdout Sample.flow_start.
Proof.
  apply (@start_auth_flow_missing_endpoint Sample.no_repr Sample.flow_start []).
  reflexivity.
Defined.

(** X18. The metadata that [get_auth_server_metadata] returns always lets
    [start_auth_flow] return: the key it reads was checked when the
    metadata was printed. *)
Theorem metadata_lets_flow_start (url : str) (repr : json -> str)
        (w : World) (r : ClientResponse) (m : json) :
  answers w r ->
  fst (get_auth_server_metadata url repr w) = Returned m ->
  forall w2, exists token, fst (start_auth_flow repr m w2) = Returned token.
Proof.
  intros Ha Hm w2.
  destruct (get_auth_server_metadata_returned url repr Ha Hm)
    as (_ & _ & fields & -> & _ & Hep & _).
  unfold contains in Hep.
  destruct (lookup (lit "authorization_endpoint") fields) as [endpoint|] eqn:E;
    [|discriminate].
  destruct (start_auth_flow_run repr w2 fields E) as [printed Hrun].
  eexists. rewrite Hrun. reflexivity.
Qed.

Lemma metadata_lets_flow_start_witness :
  exists token,
    fst (start_auth_flow Sample.no_repr Sample.server_metadata Sample.flow_start)
    = Returned token.
Proof.
  apply (@metadata_lets_flow_start Sample.server_url Sample.no_repr
           (Demo.replying (Sample.with_json 200 Sample.server_metadata))
           (Sample.with_json 200 Sample.server_metadata)
           Sample.server_metadata (replying_answers _)).
  vm_compute. reflexivity.
Defined.

(** ** More on [handle_callback] *)

(** The answer of the handler as a function of the first values of error,
    state and code and of the stored state. *)
Lemma handle_callback_outcome (w : World) (query : list (str * str)) :
  fst (handle_callback query w)
  = Returned
      match lookup (lit "error") query with
      | Some err =>
        {| Web.text := authorization_error_text err;
           Web.content_type := lit "text/html"; Web.status := 400 |}
      | None =>
        if differs (lookup (lit "state") query) (state (client w))
        then {| Web.text := invalid_state_text;
                Web.content_type := lit "text/html"; Web.status := 400 |}
        else if falsy (lookup (lit "code") query)
             then {| Web.text := missing_code_text;
                     Web.content_type := lit "text/html"; Web.status := 400 |}
             else {| Web.text := success_text;
                     Web.content_type := lit "text/html"; Web.status := 200 |}
      end.
Proof.
  unfold handle_callback, contains.
  destruct (lookup (lit "error") query); [reflexivity|].
  rewrite bind_read.
  destruct (differs _ _); [reflexivity|].
  destruct (falsy _); reflexivity.
Qed.

Lemma falsy_false (code : option str) :
  falsy code = false <-> exists c, code = Some c /\ c <> [].
Proof.
  destruct code as [[|x c]|]; cbn [falsy]; split; intros H; try discriminate;
    try reflexivity.
  - destruct H as (c & E & Hc). injection E as <-. contradiction.
  - exists (x :: c). split; [reflexivity|discriminate].
  - destruct H as (c & E & _). discriminate.
Qed.


(** X20. The handler answers 200 exactly when the query has no error
    parameter, its state is the stored one and its code is not empty: a
    200 answer means that the state was matched. *)
Theorem handle_callback_ok_iff (w : World) (query : list (str * str)) :
  (exists r, fst (handle_callback query w) = Returned r /\ Web.status r = 200%Z)
  <-> lookup (lit "error") query = None /\
      lookup (lit "state") query = state (client w) /\
      exists code, lookup (lit "code") query = Some code /\ code <> [].
Proof.
  rewrite handle_callback_outcome. split.
  - intros (r & Hr & Hst). apply returned_eq in Hr. subst r. revert Hst.
    destruct (lookup (lit "error") query); [discriminate|].
    destruct (differs _ _) eqn:Ed; [discriminate|].
    destruct (falsy _) eqn:Ef; [discriminate|]. intros _.
    split; [reflexivity|]. split; [now apply differs_false|now apply falsy_false].
  - intros (He & Hs & Hc). rewrite He.
    apply differs_false in Hs. apply falsy_false in Hc. rewrite Hs, Hc.
    eexists. split; reflexivity.
Qed.

(** X21. [handle_callback] changes nothing of the client, sends no request
    and draws no random byte: it stores no code and no token and leaves the
    expected state in place, so that the same query gets the same answer
    when it comes again. *)
Theorem handle_callback_keeps_world (query : list (str * str)) :
  preserves client (handle_callback query) /\
  preserves requests (handle_callback query) /\
  preserves drawn (handle_callback query) /\
  forall w, fst (handle_callback query (snd (handle_callback query w)))
            = fst (handle_callback query w).
Proof.
  assert (Hc : preserves client (handle_callback query))
    by (unfold handle_callback; frame).
  split; [exact Hc|]. split; [unfold handle_callback; frame|].
  split; [unfold handle_callback; frame|].
  intros w. rewrite !handle_callback_outcome. now rewrite Hc.
Qed.

(** X22. A client that has not generated a state yet accepts a callback
    that carries none: with no stored state, a query with a code and
    neither state nor error is answered 200. *)
Theorem handle_callback_without_state (w : World) (query : list (str * str))
        (code : str) :
  state (client w) = None ->
  lookup (lit "state") query = None ->
  lookup (lit "error") query = None ->
  lookup (lit "code") query = Some code -> code <> [] ->
  fst (handle_callback query w)
  = Returned {| Web.text := success_text;
                Web.content_type := lit "text/html"; Web.status := 200 |}.
Proof.
  intros Hs Hq He Hc Hne. rewrite handle_callback_outcome, He, Hq, Hs, Hc.
  destruct code; [contradiction|reflexivity].
Qed.

Lemma handle_callback_without_state_witness :
  fst (handle_callback [(lit "code", lit "abc123")]
         (Sample.world init [] ConnectionFailed))
  = Returned {| Web.text := success_text;
                Web.content_type := lit "text/html"; Web.status := 200 |}.
Proof.
  apply (@handle_callback_without_state (Sample.world init [] ConnectionFailed)
           [(lit "code", lit "abc123")] (lit "abc123")); try reflexivity.
  vm_compute. discriminate.
Defined.

(** X23. Only the first value of error, of state and of code counts: two
    queries that agree on these three get the same answer, whatever else
    they hold and whatever later values the three keys have. *)
Theorem handle_callback_first_values (w : World) (q1 q2 : list (str * str)) :
  lookup (lit "error") q1 = lookup (lit "error") q2 ->
  lookup (lit "state") q1 = lookup (lit "state") q2 ->
  lookup (lit "code") q1 = lookup (lit "code") q2 ->
  fst (handle_callback q1 w) = fst (handle_callback q2 w).
Proof.
  intros He Hs Hc. rewrite !handle_callback_outcome. now rewrite He, Hs, Hc.
Qed.

Lemma handle_callback_first_values_witness :
  fst (handle_callback
         [(lit "state", lit "forged"); (lit "code", lit "abc123");
          (lit "state", lit "expected"); (lit "scope", lit "all")]
         Sample.awaiting)
  = fst (handle_callback Sample.forged Sample.awaiting).
Proof.
  apply handle_callback_first_values; reflexivity.
Defined.

(** ** The whole demo against a server that knows no token *)







(** ** [main] *)

(** The outcome of the health check as a function of the network's reply
    to its request. *)
Lemma health_check_outcome (url : str) (w : World) :
  fst (health_check url w)
  = Returned
      match network w (requests w
                       ++ [{| req_method := GET; req_url := url ++ lit "/health";
                              req_headers := []; req_json := None |}]) with
      | Responds r =>
        (status r <? 400)%Z
        && match json_body r with
           | Some (JObj _) => true
           | _ => false
           end
      | ConnectionFailed => false
      end.
Proof.
  unfold health_check, try_except, bind, send. cbn [closed]. cbv zeta.
  destruct (network w _) as [|r]; [reflexivity|].
  unfold ok. destruct (status r <? 400)%Z; cbn [negb andb]; [|reflexivity].
  destruct (json_body r) as [body|]; [|reflexivity]. cbn [expect ret].
  destruct body; try reflexivity. cbn [get_or_none ret].
  destruct (negb (truthy (lookup (lit "authEnabled") fields))); reflexivity.
Qed.

Lemma health_check_step (url : str) :
  preserves client (health_check url) /\ preserves drawn (health_check url) /\
  forall w, requests (snd (health_check url w))
            = requests w ++ [{| req_method := GET; req_url := url ++ lit "/health";
                                req_headers := []; req_json := None |}].
Proof.
  split; [unfold health_check; frame|].
  split; [unfold health_check; frame|].
  intros w. unfold health_check, try_except.
  match goal with |- context [bind (send ?s ?rq) ?k w] =>
    pose proof (@sent_one _ {| closed := false |} rq k w eq_refl) as H
  end.
  match type of H with ?P -> _ =>
    assert (Hk : P) by (intros r; frame) end.
  specialize (H Hk). clear Hk.
  match goal with |- requests (snd (let (o, w') := ?x in _)) = _ =>
    destruct x as [[b|e] w1] end; cbn [snd] in H; [exact H|].
  rewrite !bind_print. exact H.
Qed.

(** X25. The health check of [main] never raises. It lets [main] go on
    exactly when the server answers [/health] with a status below 400 and a
    JSON object; whether authEnabled is set makes no difference. In every
    case one request has been sent, and the client is untouched. *)
Theorem health_check_result (url : str) (w : World) :
  exists go_on,
    fst (health_check url w) = Returned go_on /\
    (go_on = true
     <-> exists r fields,
           network w (requests w
                      ++ [{| req_method := GET; req_url := url ++ lit "/health";
                             req_headers := []; req_json := None |}])
           = Responds r /\
           (status r < 400)%Z /\ json_body r = Some (JObj fields)) /\
    requests (snd (health_check url w))
    = requests w ++ [{| req_method := GET; req_url := url ++ lit "/health";
                        req_headers := []; req_json := None |}] /\
    client (snd (health_check url w)) = client w.
Proof.
  destruct (health_check_step url) as (Hc & _ & Hr).
  eexists. split; [apply health_check_outcome|].
  split; [|split; [apply Hr|apply Hc]].
  destruct (network w _) as [|r].
  - split; [discriminate|]. intros (r & fields & H & _). discriminate.
  - split.
    + intros H. apply andb_true_iff in H. destruct H as [Hst Hb].
      apply Z.ltb_lt in Hst.
      destruct (json_body r) as [[]|] eqn:Ej; try discriminate.
      exists r, fields. split; [reflexivity|]. split; [exact Hst|exact Ej].
    + intros (r' & fields & Hr' & Hst & Hb). injection Hr' as <-.
      rewrite Hb. apply andb_true_iff. split; [now apply Z.ltb_lt|reflexivity].
Qed.

Lemma health_check_failed_line (url : str) (w : World) :
  fst (health_check url w) = Returned false ->
  last (stdout (snd (health_check url w))) []
  = lit "   Make sure the server is running: npm start".
Proof.
  unfold health_check, try_except, bind, send. cbn [closed]. cbv zeta.
  destruct (network w _) as [|r]; [intros _; apply last_last|].
  unfold ok. destruct (status r <? 400)%Z; cbn [negb];
    [|intros _; apply last_last].
  destruct (json_body r) as [body|]; [|intros _; apply last_last].
  cbn [expect ret].
  destruct body; try (intros _; apply last_last). cbn [get_or_none ret].
  destruct (negb (truthy (lookup (lit "authEnabled") fields)));
    intros H; discriminate.
Qed.

(** X26. When the health check fails, whether the server cannot be
    reached, answers with a status of 400 or more, or sends something that
    is no JSON object, [main] returns without raising: it has sent that one
    request, no client is created or changed, no random byte is drawn, and
    the last line printed tells to start the server. *)
Theorem main_without_server (url : str) (repr : json -> str)
        (message : exn -> str) (w : World) :
  fst (health_check url w) = Returned false ->
  fst (main url repr message w) = Returned tt /\
  requests (snd (main url repr message w))
  = requests w ++ [{| req_method := GET; req_url := url ++ lit "/health";
                      req_headers := []; req_json := None |}] /\
  client (snd (main url repr message w)) = client w /\
  drawn (snd (main url repr message w)) = drawn w /\
  last (stdout (snd (main url repr message w))) []
  = lit "   Make sure the server is running: npm start".
Proof.
  intros H. destruct (health_check_step url) as (Hc & Hd & Hr).
  pose proof (health_check_failed_line url w H) as Hl.
  unfold main. erewrite bind_returned by exact H.
  cbn [fst snd ret]. repeat split; [apply Hr|apply Hc|apply Hd|exact Hl].
Qed.

Lemma main_without_server_witness :
  fst (main Sample.server_url Sample.no_repr Sample.no_message Demo.offline)
  = Returned tt /\
  fst (main Sample.server_url Sample.no_repr Sample.no_message
         (Demo.replying (Sample.with_json 200 (JArr [])))) = Returned tt.
Proof.
  split.
  - apply (@main_without_server Sample.server_url Sample.no_repr
             Sample.no_message Demo.offline).
    reflexivity.
  - apply (@main_without_server Sample.server_url Sample.no_repr
             Sample.no_message (Demo.replying (Sample.with_json 200 (JArr [])))).
    reflexivity.
Defined.

Lemma run_complete_flow_session (url : str) (repr : json -> str)
      (message : exn -> str) :
  preserves (fun w => session (client w)) (run_complete_flow url repr message).
Proof.
  unfold run_complete_flow, complete_flow_steps, discover_endpoints,
    get_auth_server_metadata, start_auth_flow, simulate_callback,
    generate_pkce, generate_state, token_hex, store_api_key,
    get_api_key_metadata, make_mcp_request, decode_utf8, encode_utf8.
  cbv zeta. frame.
Qed.

Lemma aexit_some (w : World) (s : ClientSession) :
  session (client w) = Some s ->
  aexit w = (Returned tt, snd (set_session (Some {| closed := true |}) w)).
Proof. intros H. unfold aexit. rewrite bind_read, H. reflexivity. Qed.

(** X27. When the health check lets it go on, [main] runs the flow on a
    new client with an open session, ends as the flow ends, returning or
    raising what it raised, and in both cases leaves the session of that
    client closed. *)
Theorem main_closes_session (url : str) (repr : json -> str)
        (message : exn -> str) (w : World) :
  fst (health_check url w) = Returned true ->
  exists entered,
    client entered
    = {| access_token := None; code_verifier := None; state := None;
         session := Some {| closed := false |} |} /\
    requests entered = requests (snd (health_check url w)) /\
    fst (main url repr message w)
    = fst (run_complete_flow url repr message entered) /\
    session (client (snd (main url repr message w)))
    = Some {| closed := true |}.
Proof.
  intros H.
  exists (snd (aenter (snd (modify_client (fun _ => init)
                              (snd (health_check url w)))))).
  split; [reflexivity|]. split; [reflexivity|].
  unfold main. erewrite bind_returned by exact H. unfold with_client.
  remember (snd (health_check url w)) as w1 eqn:E1. clear E1 H.
  change ((modify_client (fun _ => init) ;; aenter ;;
           (fun w0 =>
              match run_complete_flow url repr message w0 with
              | (Returned a, w') => (aexit ;; ret a) w'
              | (Raised e, w') => (aexit ;; raise e) w'
              end)) w1)
    with (match run_complete_flow url repr message
                  (snd (aenter (snd (modify_client (fun _ => init) w1)))) with
          | (Returned a, w') => (aexit ;; ret a) w'
          | (Raised e, w') => (aexit ;; raise e) w'
          end).
  remember (snd (aenter (snd (modify_client (fun _ => init) w1)))) as w2 eqn:E2.
  assert (S2 : session (client w2) = Some {| closed := false |})
    by (subst w2; reflexivity).
  clear E2.
  pose proof (run_complete_flow_session url repr message w2) as Hs.
  cbv beta in Hs. rewrite S2 in Hs.
  destruct (run_complete_flow url repr message w2) as [[a|e] w3];
    cbn [fst snd] in *; unfold bind; rewrite (aexit_some w3 Hs);
    split; reflexivity.
Qed.

Lemma main_closes_session_witness :
  exists entered,
    client entered
    = {| access_token := None; code_verifier := None; state := None;
         session := Some {| closed := false |} |} /\
    requests entered
    = requests (snd (health_check Sample.server_url
                       (Demo.replying (Sample.with_json 200 (JObj []))))) /\
    fst (main Sample.server_url Sample.no_repr Sample.no_message
           (Demo.replying (Sample.with_json 200 (JObj []))))
    = fst (run_complete_flow Sample.server_url Sample.no_repr Sample.no_message
             entered) /\
    session (client (snd (main Sample.server_url Sample.no_repr Sample.no_message
                            (Demo.replying (Sample.with_json 200 (JObj []))))))
    = Some {| closed := true |}.
Proof.
  apply (@main_closes_session Sample.server_url Sample.no_repr Sample.no_message
           (Demo.replying (Sample.with_json 200 (JObj [])))).
  reflexivity.
Defined.
